(** * sphinx-click: a shallow embedding of [sphinx_click/ext.py]

    The extension turns a click command tree into reStructuredText lines
    and hands them to the documentation engine.  This development embeds
    the formatting functions, the sub-command selection, the module
    resolver and the two directives, and proves the properties the
    specification states about them.

    Conventions of the embedding:
    - a Python [str] is a [string]; a character stands for the code point
      of the same number (0..255);
    - a generator is the finite list of the values it yields;
    - a Python exception is a value of [exn], carried by [result];
    - the click library, docutils and the import machinery are not part of
      the repository: what the code calls from them is a field of the
      classes [ClickLib], [DocEngine] and [Importer]. *)

From Stdlib Require Import Ascii ZArith Lia Sorted Permutation DecimalString.
From Stdlib Require String.
From stdpp Require Import base list gmap strings.

Local Open Scope Z_scope.
Set Warnings "-register-all".

(** ** Python string primitives *)

Module Py.

Definition chr (n : nat) : ascii := ascii_of_nat n.
Definition ord (c : ascii) : nat := nat_of_ascii c.

(** The double quote character, as a one-character string. *)
Definition dq : string := String (chr 34) "".
(** The line feed character, as a one-character string. *)
Definition nl : string := String (chr 10) "".
(** The backspace character, as a one-character string. *)
Definition bs : string := String (chr 8) "".

(** [str.splitlines] breaks on these code points (below 256):
    LF, VT, FF, CR, FS, GS, RS and NEL. *)
Definition is_linebreak (c : ascii) : bool :=
  match ord c with
  | 10 | 11 | 12 | 13 | 28 | 29 | 30 | 133 => true
  | _ => false
  end%nat.

(** [str.isspace] on the code points below 256. *)
Definition is_space (c : ascii) : bool :=
  match ord c with
  | 9 | 10 | 11 | 12 | 13 | 28 | 29 | 30 | 31 | 32 | 133 | 160 => true
  | _ => false
  end%nat.

Definition is_cr (c : ascii) : bool := Nat.eqb (ord c) 13.
Definition is_lf (c : ascii) : bool := Nat.eqb (ord c) 10.

(** Truth value of a string: non-empty. *)
Definition truthy (s : string) : bool :=
  match s with EmptyString => false | String _ _ => true end.

(** [text.splitlines(keepends)]: a CR directly followed by LF is one
    terminator; no line is reported after the last terminator. *)
Fixpoint splitlines (keepends : bool) (s : string) : list string :=
  match s with
  | EmptyString => []
  | String c s' =>
      if is_linebreak c then
        match s' with
        | String c' s'' =>
            if is_cr c && is_lf c' then
              (if keepends then String c (String c' "") else "")
                :: splitlines keepends s''
            else
              (if keepends then String c "" else "")
                :: splitlines keepends s'
        | EmptyString => [if keepends then String c "" else ""]
        end
      else
        match splitlines keepends s' with
        | [] => [String c ""]
        | l :: ls => String c l :: ls
        end
  end.

Fixpoint lstrip (s : string) : string :=
  match s with
  | EmptyString => ""
  | String c s' => if is_space c then lstrip s' else s
  end.

Fixpoint rstrip (s : string) : string :=
  match s with
  | EmptyString => ""
  | String c s' =>
      match rstrip s' with
      | EmptyString => if is_space c then "" else String c ""
      | r => String c r
      end
  end.

Definition strip (s : string) : string := rstrip (lstrip s).

(** [s * n] for a string [s] and an integer [n]: empty when [n <= 0]. *)
Definition mul (s : string) (n : Z) : string :=
  String.concat "" (replicate (Z.to_nat n) s).

(** [sep.join(l)] *)
Definition join (sep : string) (l : list string) : string :=
  String.concat sep l.

(** [s.split(sep)] for a one-character separator: the pieces between the
    occurrences of [sep]; always at least one piece. *)
Fixpoint split (sep : ascii) (s : string) : list string :=
  match s with
  | EmptyString => [""]
  | String c s' =>
      if Ascii.eqb c sep then "" :: split sep s'
      else
        match split sep s' with
        | [] => [String c ""]
        | p :: ps => String c p :: ps
        end
  end.

(** [s.split(sep, 1)]: at most one split, at the first occurrence. *)
Fixpoint split1 (sep : ascii) (s : string) : list string :=
  match s with
  | EmptyString => [""]
  | String c s' =>
      if Ascii.eqb c sep then [""; s']
      else
        match split1 sep s' with
        | [] => [String c ""]
        | p :: ps => String c p :: ps
        end
  end.

End Py.

(** ** [_indent] *)

Definition _indent (text : string) (level : Z) : string :=
  let prefix := Py.mul " " (4 * level) in
  let prefixed_lines :=
    map (fun line => if Py.truthy (Py.strip line) then prefix +:+ line else line)
        (Py.splitlines true text) in
  Py.join "" prefixed_lines.

(** ** The click object model (read-only for the extension) *)

(** The values an option takes from the command line, as click's parameter
    types produce them; [str_of_scalar] is [str(d)]. *)
Inductive Scalar :=
| SInt (z : Z)
| SStr (s : string)
| SBool (b : bool).

Definition str_of_scalar (d : Scalar) : string :=
  match d with
  | SInt z => NilZero.string_of_int (Z.to_int z)
  | SStr s => s
  | SBool true => "True"
  | SBool false => "False"
  end.

(** An element of a sequence default: one value, or, for an option that
    takes several values at a time ([nargs > 1] with [multiple=True]), the
    tuple of them. *)
Inductive Element :=
| EScalar (v : Scalar)
| ETuple (l : list Scalar).

(** A default: one value, or a list or a tuple of elements ([nargs > 1] or
    [multiple=True]). *)
Inductive DefaultValue :=
| DScalar (v : Scalar)
| DList (l : list Element)
| DTuple (l : list Element).

(** [click.Option].  click refuses an option without a flag spelling, so
    [opts] is never empty.  [None] stands for Python's [None] in [opt_help],
    [opt_default] and [opt_envvar], and for a missing attribute in [rich_help]
    and [hidden] (both are read with [getattr] and a default). *)
Record ClickOption := mkOption {
  opts_first : string;
  opts_rest : list string;
  secondary_opts : list string;
  is_flag : bool;
  count : bool;
  opt_help : option string;
  rich_help : option string;
  opt_default : option DefaultValue;
  show_default : bool;
  opt_required : bool;
  hidden : option bool;
  opt_envvar : option string
}.

Definition opts (o : ClickOption) : list string := opts_first o :: opts_rest o.

(** [click.Argument]. *)
Record ClickArgument := mkArgument {
  human_readable_name : string;
  arg_required : bool;
  nargs : Z;
  arg_envvar : option string
}.

Inductive Param :=
| POption (o : ClickOption)
| PArgument (a : ClickArgument).

Definition envvar (p : Param) : option string :=
  match p with
  | POption o => opt_envvar o
  | PArgument a => arg_envvar a
  end.

(** [click.Command] and [click.Group].  A dict keeps insertion order, so the
    sub-command mapping is an association list; only a group has the
    attribute [commands]. *)
Inductive Command := mkCommand {
  cmd_name : string;
  cmd_help : option string;
  cmd_short_help : option string;
  cmd_params : list Param;
  cmd_commands : option (list (string * Command))
}.

Inductive PyObject :=
| PyNone
| PyStr (s : string)
| PyCommand (c : Command).

(** [click.Context] (named [Ctx] here): a command, the name it was invoked
    with and the context of its parent. *)
Inductive Ctx := mkContext {
  ctx_command : Command;
  info_name : PyObject;
  ctx_parent : option Ctx
}.

(** Number of group levels below a command. *)
Fixpoint height (c : Command) : nat :=
  match cmd_commands c with
  | None => 0
  | Some subs =>
      S ((fix go (l : list (string * Command)) : nat :=
            match l with
            | [] => 0
            | kv :: l' => Nat.max (height kv.2) (go l')
            end) subs)
  end%nat.

(** ** Exceptions, the build environment and the directive monad *)

Inductive exn :=
| DirectiveError (msg : string)
| PyExc (what : string).

Inductive result (A : Type) :=
| Return (a : A)
| Raise (e : exn).
Arguments Return {A} a.
Arguments Raise {A} e.

(** Sequencing of pure code that may raise. *)
Definition and_then {A B} (r : result A) (k : A -> result B) : result B :=
  match r with
  | Return a => k a
  | Raise e => Raise e
  end.

Declare Scope result_scope.
Delimit Scope result_scope with R.
Notation "'let?' x := c 'in' k" := (and_then c (fun x => k))
  (at level 10, x name, c at level 100, k at level 200) : result_scope.

(** [[f(x) for x in l]] where [f] may raise: the first failure ends it. *)
Fixpoint map_result {A B} (f : A -> result B) (l : list A) : result (list B) :=
  match l with
  | [] => Return []
  | x :: l' =>
      (let? y := f x in
       let? ys := map_result f l' in
       Return (y :: ys))%R
  end.

(** [for x in l: for line in f(x): yield line], as the list of all the
    lines, where [f] may raise. *)
Fixpoint flat_map_result {A B} (f : A -> result (list B)) (l : list A)
  : result (list B) :=
  match l with
  | [] => Return []
  | x :: l' =>
      (let? ys := f x in
       let? rest := flat_map_result f l' in
       Return (ys ++ rest))%R
  end.

(** [env.temp_data]: a plain dict at first, a [collections.ChainMap] once a
    [click] directive has run. *)
Inductive Mapping :=
| Dict (d : gmap string PyObject)
| ChainMap (maps : list Mapping).

(** [key in m] and [m[key]] together: the binding of [key], if any.  A
    ChainMap answers from the first of its maps that has the key. *)
Fixpoint mapping_lookup (m : Mapping) (key : string) : option PyObject :=
  match m with
  | Dict d => d !! key
  | ChainMap maps =>
      (fix first (ms : list Mapping) : option PyObject :=
         match ms with
         | [] => None
         | m' :: ms' =>
             match mapping_lookup m' key with
             | Some v => Some v
             | None => first ms'
             end
         end) maps
  end.

(** [m.get(key, dflt)] *)
Definition mapping_get (m : Mapping) (key : string) (dflt : PyObject) : PyObject :=
  match mapping_lookup m key with
  | Some v => v
  | None => dflt
  end.

(** [collections.ChainMap] applied to the maps [maps]: an empty argument
    list gives one empty dict. *)
Definition new_ChainMap (maps : list Mapping) : Mapping :=
  ChainMap (match maps with [] => [Dict ∅] | _ => maps end).

(** [m.parents]: a dict has no such attribute. *)
Definition parents (m : Mapping) : result Mapping :=
  match m with
  | ChainMap maps => Return (new_ChainMap (tail maps))
  | Dict _ => Raise (PyExc "AttributeError")
  end.

Record Env := mkEnv { temp_data : Mapping }.

(** A computation over the build environment that returns or raises; the
    environment survives a raise.  [None] is reserved for the walker's
    recursion budget ([_generate_nodes] below). *)
Definition M (A : Type) : Type := Env -> option (result A * Env).

Definition ret {A} (a : A) : M A := fun env => Some (Return a, env).
Definition raise {A} (e : exn) : M A := fun env => Some (Raise e, env).
Definition lift {A} (r : result A) : M A := fun env => Some (r, env).
(** A call into the host, which has the environment at hand. *)
Definition call {A} (f : Env -> result A * Env) : M A := fun env => Some (f env).
Definition bind {A B} (m : M A) (k : A -> M B) : M B :=
  fun env =>
    match m env with
    | None => None
    | Some (Raise e, env') => Some (Raise e, env')
    | Some (Return a, env') => k a env'
    end.
Definition get_temp_data : M Mapping := fun env => Some (Return (temp_data env), env).
Definition set_temp_data (m : Mapping) : M unit := fun _ => Some (Return tt, mkEnv m).

(** [try: body finally: cleanup] *)
Definition try_finally {A} (body : M A) (cleanup : M unit) : M A :=
  fun env =>
    match body env with
    | None => None
    | Some (r, env') =>
        match cleanup env' with
        | None => None
        | Some (Raise e, env'') => Some (Raise e, env'')
        | Some (Return _, env'') => Some (r, env'')
        end
    end.

Declare Scope m_scope.
Delimit Scope m_scope with M.
Notation "'let*' x := c 'in' k" := (bind c (fun x => k))
  (at level 10, x name, c at level 100, k at level 200) : m_scope.
Notation "'run*' c 'in' k" := (bind c (fun _ => k))
  (at level 10, c at level 100, k at level 200) : m_scope.

(** ** The host libraries *)

(** What the code calls from click. *)
Class ClickLib := {
  join_options : list string -> string * bool;
  make_metavar : ClickOption -> string;
  collect_usage_pieces : Ctx -> list string;
  command_path : Ctx -> string
}.

(** [statemachine.ViewList]: lines with the name of their source. *)
Definition ViewList := list (string * string).

(** What the code calls from docutils and Sphinx.  [string2lines] is called
    with [tab_width=4, convert_whitespace=True] throughout;
    [nested_parse_with_titles] yields the children it adds to the fresh
    node it is given, or raises; the directives it runs on the way have
    access to the build environment. *)
Class DocEngine := {
  node : Type;
  string2lines : string -> list string;
  nested_parse_with_titles : ViewList -> Env -> result (list node) * Env
}.

(** What the handler [except (Exception, SystemExit) as exc] can catch. *)
Inductive ImportExc :=
| SystemExit
| Exception (traceback : string).

Inductive ImportOutcome (module : Type) :=
| Imported (m : module)
| ImportRaised (exc : ImportExc).
Arguments Imported {module} m.
Arguments ImportRaised {module} exc.

(** The import machinery: [__import__(name, globals(), locals(), fromlist)]
    either yields a module, or the module calls [sys.exit], or an
    [Exception] is raised, whose formatted traceback is what
    [traceback.format_exc()] returns in the handler.  Interrupts that are
    neither ([KeyboardInterrupt], [GeneratorExit]) are not import outcomes
    here. *)
Class Importer := {
  PyModule : Type;
  __import__ : string -> list string -> ImportOutcome PyModule;
  module_getattr : PyModule -> string -> option PyObject
}.

(** ** The help-text formatters *)

Section Formatters.
Context `{ClickLib} `{DocEngine}.

(** The value of [a or b] for two optional strings. *)
Definition py_or (a b : option string) : option string :=
  match a with
  | Some s => if Py.truthy s then a else b
  | None => b
  end.

Definition truthy_opt (a : option string) : bool :=
  match a with
  | Some s => Py.truthy s
  | None => false
  end.

Definition _get_usage (ctx : Ctx) : string :=
  let pieces := collect_usage_pieces ctx in
  "**" +:+ command_path ctx +:+ "** " +:+ Py.join " " pieces.

(** ['%s' % d] for an element [d] of a sequence default.  A tuple on the
    right of [%] is the tuple of the arguments of the format, and ['%s']
    takes exactly one: a tuple that is not of length 1 raises
    [TypeError]. *)
Definition percent_s (d : Element) : result string :=
  match d with
  | EScalar v => Return (str_of_scalar v)
  | ETuple [v] => Return (str_of_scalar v)
  | ETuple _ => Raise (PyExc "TypeError")
  end.

(** The operand of ['default: %s' % (..., )]: the elements of a list or a
    tuple, each through ['%s' % d], joined with [', ']; anything else as it
    is, printed by the outer format. *)
Definition format_default (d : DefaultValue) : result string :=
  match d with
  | DList l | DTuple l =>
      (let? parts := map_result percent_s l in Return (Py.join ", " parts))%R
  | DScalar v => Return (str_of_scalar v)
  end.

Definition _get_help_record (opt : ClickOption) : result (string * string) :=
  let _write_opts (os : list string) : string :=
    let rv := (join_options os).1 in
    if negb (is_flag opt) && negb (count opt)
    then rv +:+ " " +:+ make_metavar opt
    else rv in
  let rv := [_write_opts (opts opt)] in
  let rv :=
    match secondary_opts opt with
    | [] => rv
    | _ => rv ++ [_write_opts (secondary_opts opt)]
    end in
  let help :=
    match rich_help opt with
    | Some h => h
    | None => match py_or (opt_help opt) (Some "") with
              | Some h => h
              | None => ""
              end
    end in
  let extra := [] in
  (let? extra :=
     match opt_default opt with
     | Some d =>
         if show_default opt
         then (let? value := format_default d in
               Return (extra ++ ["default: " +:+ value]))
         else Return extra
     | None => Return extra
     end in
   let extra := if opt_required opt then extra ++ ["required"] else extra in
   let help :=
     match extra with
     | [] => help
     | _ => (if Py.truthy help then help +:+ "  " else "")
              +:+ "[" +:+ Py.join "; " extra +:+ "]"
     end in
   Return (Py.join ", " rv, help))%R.

Definition _format_description (ctx : Ctx) : list string :=
  let help_string := py_or (cmd_help (ctx_command ctx))
                           (cmd_short_help (ctx_command ctx)) in
  match help_string with
  | Some hs =>
      if Py.truthy hs then
        filter (fun line => Py.strip line ≠ Py.bs) (string2lines hs) ++ [""]
      else []
  | None => []
  end.

Definition _format_usage (ctx : Ctx) : list string :=
  [""] ++ Py.splitlines false (_get_usage ctx) ++ [""].

Definition _format_option (opt : ClickOption) : result (list string) :=
  (let? opt := _get_help_record opt in
   Return ([".. option:: " +:+ opt.1]
             ++ (if Py.truthy opt.2
                 then [""] ++ map (fun line => _indent line 1)
                                  (string2lines opt.2)
                 else [])))%R.

(** [params] keeps the parameters that are options and are not hidden,
    [getattr(x, 'hidden', False)] being false for them.  The first option
    whose help record raises ends the generator. *)
Definition _format_options (ctx : Ctx) : result (list string) :=
  let params :=
    omap (fun x => match x with
                   | POption o =>
                       if negb (default false (hidden o)) then Some o else None
                   | PArgument _ => None
                   end)
         (cmd_params (ctx_command ctx)) in
  flat_map_result
    (fun param =>
       (let? lines := _format_option param in Return (lines ++ [""]))%R)
    params.

Definition _format_argument (arg : ClickArgument) : list string :=
  [".. option:: " +:+ human_readable_name arg;
   "";
   _indent ((if arg_required arg then "Required" else "Optional")
              +:+ " argument"
              +:+ (if bool_decide (nargs arg ≠ 1) then "(s)" else "")) 1].

(** [params] keeps the parameters that are arguments. *)
Definition _format_arguments (ctx : Ctx) : list string :=
  let params :=
    omap (fun x => match x with
                   | PArgument a => Some a
                   | POption _ => None
                   end)
         (cmd_params (ctx_command ctx)) in
  flat_map (fun param => _format_argument param ++ [""]) params.

Definition _format_envvar (param : Param) : list string :=
  let param_ref :=
    match param with
    | PArgument a => human_readable_name a
    | POption o => opts_first o
    end in
  [".. envvar:: " +:+ default "None" (envvar param);
   "";
   _indent ("Provide a default for :option:`" +:+ param_ref +:+ "`") 1].

(** [params] keeps the parameters whose [envvar] is true as a condition:
    a non-empty name. *)
Definition _format_envvars (ctx : Ctx) : list string :=
  let params := filter (fun x => truthy_opt (envvar x) = true)
                       (cmd_params (ctx_command ctx)) in
  flat_map (fun param => _format_envvar param ++ [""]) params.

Definition _format_subcommand (command : Command) : list string :=
  [".. object:: " +:+ cmd_name command]
    ++ (if truthy_opt (cmd_short_help command)
        then [""] ++ map (fun line => _indent line 1)
                         (string2lines (default "" (cmd_short_help command)))
        else []).

(** ** Sub-command selection *)

(** [getattr(command, 'commands', {})] *)
Definition get_commands (command : Command) : list (string * Command) :=
  default [] (cmd_commands command).

(** [lookup[name]], when [name in lookup].  The keys of a dict are distinct,
    so the first binding of a key is the only one. *)
Definition dict_lookup (lookup : list (string * Command)) (name : string)
  : option Command :=
  snd <$> find (fun kv => String.eqb kv.1 name) lookup.

(** [sorted(l, key=...)]: stable, ascending in the keys. *)
Fixpoint insert_sorted {A} (key : A -> string) (x : A) (l : list A) : list A :=
  match l with
  | [] => [x]
  | y :: l' =>
      if String.leb (key x) (key y) then x :: l
      else y :: insert_sorted key x l'
  end.

Definition sorted {A} (key : A -> string) (l : list A) : list A :=
  foldr (insert_sorted key) [] l.

(** The order [sorted] establishes: ascending keys, compared as Python
    compares strings (code point by code point). *)
Definition by_key {A} (key : A -> string) (a b : A) : Prop :=
  String.leb (key a) (key b) = true.

(** The comprehension [[lookup[name] for name in names if name in lookup]]
    is the list of the bindings found, in the order of [names]. *)
Definition _filter_commands (ctx : Ctx) (commands : option string)
  : list Command :=
  match commands with
  | None =>
      sorted cmd_name (map snd (get_commands (ctx_command ctx)))
  | Some commands =>
      let names := map Py.strip (Py.split "," commands) in
      let lookup := get_commands (ctx_command ctx) in
      omap (fun name => dict_lookup lookup name) names
  end.

(** ** The command renderer *)

(** The lines the generator yields when it runs to its end.  It raises
    where it builds [list(_format_options(ctx))], past the lines of the
    description, when the help record of an option raises: then the caller
    gets the exception and keeps no line. *)
Definition _format_command (ctx : Ctx) (show_nested : bool)
           (commands : option string) : result (list string) :=
  (let? options := _format_options ctx in
   Return
     ([".. program:: " +:+ command_path ctx; ""]
        ++ ["Synopsis"; "--------"; ""]
        ++ _format_usage ctx
        ++ ["Description"; "-----------"; ""]
        ++ _format_description ctx
        ++ (let lines := options in
            (match lines with [] => [] | _ => ["Options"; "-------"; ""] end)
              ++ lines)
        ++ (let lines := _format_arguments ctx in
            (match lines with
             | [] => []
             | _ => ["Arguments"; "---------"; ""]
             end)
              ++ lines)
        ++ (let lines := _format_envvars ctx in
            (match lines with
             | [] => []
             | _ => ["Environment variables"; "---------------------"; ""]
             end)
              ++ lines)
        ++ (if show_nested then []
            else
              let commands := _filter_commands ctx commands in
              (match commands with
               | [] => []
               | _ => ["Commands"; "--------"; ""]
               end)
                ++ flat_map (fun command => _format_subcommand command ++ [""])
                            commands)))%R.

End Formatters.

(** ** The directives *)

Module AbstractClickDirective.
Section Methods.
Context `{Importer}.

(** [self.error(msg)]: the exception a directive raises to report [msg]. *)
Definition error (msg : string) : exn := DirectiveError msg.

Definition _load_module (module_path : string) : result PyObject :=
  match Py.split1 ":" module_path with
  | [module_name; attr_name] =>
      match __import__ module_name [attr_name] with
      | Imported module =>
          match module_getattr module attr_name with
          | None =>
              Raise (error ("Module " +:+ Py.dq +:+ module_name +:+ Py.dq
                              +:+ " has no attribute "
                              +:+ Py.dq +:+ attr_name +:+ Py.dq))
          | Some value => Return value
          end
      | ImportRaised exc =>
          let err_msg := "Failed to import " +:+ Py.dq +:+ attr_name +:+ Py.dq
                           +:+ " from " +:+ Py.dq +:+ module_name +:+ Py.dq
                           +:+ ". " in
          let err_msg :=
            match exc with
            | SystemExit =>
                err_msg +:+ "The module appeared to call sys.exit()"
            | Exception traceback =>
                err_msg +:+ "The following exception was raised:"
                        +:+ Py.nl +:+ traceback
            end in
          Raise (error err_msg)
      end
  | _ =>
      Raise (error (Py.dq +:+ module_path +:+ Py.dq +:+ " is not of format "
                      +:+ Py.dq +:+ "module:parser" +:+ Py.dq))
  end.

(** [click.Context(command, info_name=name, parent=parent)]: the
    constructor reads attributes of [command] and so raises on anything
    that is not a command. *)
Definition _get_context (name : PyObject) (command : PyObject)
           (parent : option Ctx) : result Ctx :=
  match command with
  | PyCommand c => Return (mkContext c name parent)
  | _ => Raise (PyExc "AttributeError")
  end.

End Methods.
End AbstractClickDirective.

Module ClickDirective.
Import AbstractClickDirective.

(** One use of the [click] directive: its required argument and, per
    [option_spec], the options given ([None]: not given). *)
Record Directive := mkDirective {
  argument : string;
  prog : option string;
  show_nested : bool;
  auto : bool;
  commands : option string
}.

Section Methods.
Context `{ClickLib} `{DocEngine} `{Importer}.

(** The recursion follows the command tree, which the embedding bounds
    with [fuel]: one unit per level ([None] when it runs out). *)
Fixpoint _generate_nodes (fuel : nat) (name : PyObject) (command : PyObject)
         (parent : option Ctx) (show_nested : bool)
         (commands : option string) : M (list node) :=
  match fuel with
  | O => fun _ => None
  | S fuel' =>
      (let* ctx := lift (_get_context name command parent) in
       let source_name := command_path ctx in
       let* lines := lift (_format_command ctx show_nested commands) in
       let result := map (fun line => (line, source_name)) lines in
       let* children := call (nested_parse_with_titles result) in
       if show_nested then
         let commands := _filter_commands ctx commands in
         (fix extend (cs : list Command) (children : list node)
            : M (list node) :=
            match cs with
            | [] => ret children
            | command :: cs' =>
                let* sub := _generate_nodes fuel' (PyStr (cmd_name command))
                              (PyCommand command) (Some ctx) show_nested None in
                extend cs' (children ++ sub)
            end) commands children
       else ret children)%M
  end.

(** Levels the walker can descend into from a loaded object. *)
Definition levels (command : PyObject) : nat :=
  match command with
  | PyCommand c => S (height c)
  | _ => 1
  end.

Definition run (self : Directive) : M (list node) :=
  (let* command := lift (_load_module (argument self)) in
   match prog self with
   | None => raise (error ":prog: must be specified")
   | Some p =>
       let prog_name := PyStr p in
       let show_nested := show_nested self in
       let commands := commands self in
       let* td := get_temp_data in
       run* set_temp_data
              (new_ChainMap
                 [Dict {[ "click:command" := command;
                          "click:prog" := prog_name ]};
                  td]) in
       try_finally
         (_generate_nodes (levels command) prog_name command None
                          show_nested commands)
         (let* td := get_temp_data in
          let* up := lift (parents td) in
          set_temp_data up)
   end)%M.

End Methods.
End ClickDirective.

Module ClickOptionsDirective.
Import AbstractClickDirective.

(** One use of the [click-options] directive: its optional argument, the
    option [prog] and the name the directive was written with. *)
Record Directive := mkDirective {
  arguments : option string;
  prog : option string;
  name : string
}.

Section Methods.
Context `{ClickLib} `{DocEngine} `{Importer}.

Definition _generate_nodes (prog_name : PyObject) (command : PyObject)
  : M (list node) :=
  (let* ctx := lift (_get_context prog_name command None) in
   let* lines := lift (_format_options ctx) in
   let source_name := command_path ctx in
   let result := map (fun line => (line, source_name)) lines in
   let* children := call (nested_parse_with_titles result) in
   ret children)%M.

Definition run (self : Directive) : M (list node) :=
  (let* command :=
     match arguments self with
     | Some a => lift (_load_module a)
     | None =>
         let* td := get_temp_data in
         ret (mapping_get td "click:command" PyNone)
     end in
   let* td := get_temp_data in
   let prog_name :=
     match prog self with
     | Some p => PyStr p
     | None => mapping_get td "click:prog" (PyStr "")
     end in
   match command with
   | PyNone =>
       raise (error ("The " +:+ name self
                       +:+ " directive can only be used within a `click`"
                       +:+ " directive."))
   | _ => _generate_nodes prog_name command
   end)%M.

End Methods.
End ClickOptionsDirective.

(** ** Vocabulary of the statements about the tree walker *)

Module Walk.
Import AbstractClickDirective.
Section Walks.
Context `{ClickLib} `{DocEngine}.

(** The block of one command, parsed into nodes. *)
Definition render_block (ctx : Ctx) (show_nested : bool)
           (commands : option string) : M (list node) :=
  (let* lines := lift (_format_command ctx show_nested commands) in
   call (nested_parse_with_titles
           (map (fun line => (line, command_path ctx)) lines)))%M.

(** The nodes of the sub-commands [cs], each rendered by [render], appended
    to [children] in the order of [cs]. *)
Definition extend_with (render : Command -> M (list node))
  : list Command -> list node -> M (list node) :=
  fix extend (cs : list Command) (children : list node) : M (list node) :=
    match cs with
    | [] => ret children
    | command :: cs' =>
        (let* sub := render command in extend cs' (children ++ sub))%M
    end.

(** A command and all its descendants, the sub-commands of every group in
    the order of their names: a walk that knows no filter. *)
Fixpoint unfiltered (fuel : nat) (name : string) (command : Command)
         (parent : option Ctx) : M (list node) :=
  match fuel with
  | O => fun _ => None
  | S fuel' =>
      let ctx := mkContext command (PyStr name) parent in
      (let* children := render_block ctx true None in
       extend_with (fun sub => unfiltered fuel' (cmd_name sub) sub (Some ctx))
                   (sorted cmd_name (map snd (get_commands command)))
                   children)%M
  end.

(** The walker in the words of the specification: the filter given to the
    directive selects the sub-commands at every level. *)
Fixpoint as_specified (fuel : nat) (name : PyObject) (command : PyObject)
         (parent : option Ctx) (show_nested : bool)
         (commands : option string) : M (list node) :=
  match fuel with
  | O => fun _ => None
  | S fuel' =>
      (let* ctx := lift (_get_context name command parent) in
       let* children := render_block ctx show_nested commands in
       if show_nested then
         extend_with (fun sub => as_specified fuel' (PyStr (cmd_name sub))
                                   (PyCommand sub) (Some ctx) show_nested
                                   commands)
                     (_filter_commands ctx commands) children
       else ret children)%M
  end.

End Walks.
End Walk.

(** ** Vocabulary of the statements about lines *)

Module Lines.

Fixpoint all_chars (p : ascii -> bool) (s : string) : bool :=
  match s with
  | EmptyString => true
  | String c s' => p c && all_chars p s'
  end.

(** A blank line: nothing but whitespace (its terminator included). *)
Definition blank (s : string) : bool := all_chars Py.is_space s.

Definition nobreak (s : string) : bool :=
  all_chars (fun c => negb (Py.is_linebreak c)) s.

Definition only_spaces (s : string) : bool :=
  all_chars (fun c => Nat.eqb (Py.ord c) 32) s.

Definition starts_lf (s : string) : bool :=
  match s with String c _ => Py.is_lf c | EmptyString => false end.

(** The line terminators [splitlines] recognises. *)
Inductive terminator : string -> Prop :=
| term_single c : Py.is_linebreak c = true -> terminator (String c "")
| term_crlf c1 c2 :
    Py.is_cr c1 = true -> Py.is_lf c2 = true ->
    terminator (String c1 (String c2 "")).

(** [lines s ls]: [ls] cuts [s] into terminated lines and, possibly, a
    last line without terminator. *)
Inductive lines : string -> list string -> Prop :=
| lines_nil : lines "" []
| lines_last body :
    nobreak body = true -> body <> "" -> lines body [body]
| lines_cons body term rest ls :
    nobreak body = true -> terminator term ->
    (forall c, term = String c "" -> Py.is_cr c = true ->
               starts_lf rest = false) ->
    lines rest ls ->
    lines (body +:+ term +:+ rest) ((body +:+ term) :: ls).

(** What [_indent] is to do with one line. *)
Definition indented (prefix line : string) : string :=
  if blank line then line else prefix +:+ line.

(** The titles of the sections the renderer emits on condition. *)
Definition section_titles : list string :=
  ["Options"; "Arguments"; "Environment variables"].

(** A line that is none of these titles. *)
Definition body_line (l : string) : Prop := l ∉ section_titles.

(** Empty, or beginning with a whitespace character. *)
Definition starts_blank (s : string) : bool :=
  match s with String c _ => Py.is_space c | EmptyString => true end.

(** The terminator a line ends with ([""] for an unterminated line). *)
Fixpoint ending (s : string) : string :=
  match s with
  | EmptyString => ""
  | String c s' =>
      if Py.is_linebreak c then
        match s' with
        | EmptyString => s
        | String c' EmptyString =>
            if Py.is_cr c && Py.is_lf c' then s else ending s'
        | _ => ending s'
        end
      else ending s'
  end.

End Lines.

(** ** Vocabulary of the statements about the build environment *)

Module State.

(** The maps below the first one of a ChainMap: what [parents] keeps. *)
Definition below (m : Mapping) : option (list Mapping) :=
  match m with
  | ChainMap maps => Some (tail maps)
  | Dict _ => None
  end.

(** What a [click] directive pushes. *)
Definition pushed (command prog_name : PyObject) (env : Env) : Env :=
  mkEnv (new_ChainMap [Dict {[ "click:command" := command;
                                "click:prog" := prog_name ]};
                       temp_data env]).

End State.

(** ** Vocabulary of the statements about module references *)

Module Ref.

(** No colon anywhere in the string. *)
Definition no_colon (s : string) : bool :=
  Lines.all_chars (fun c => negb (Ascii.eqb c ":")) s.

Definition quoted (s : string) : string := Py.dq +:+ s +:+ Py.dq.

(** The three kinds of message of the resolver. *)
Definition malformed (module_path : string) : string :=
  quoted module_path +:+ " is not of format " +:+ quoted "module:parser".

Definition import_failed (attr_name module_name : string) : string :=
  "Failed to import " +:+ quoted attr_name +:+ " from "
    +:+ quoted module_name +:+ ". ".

Definition called_exit : string := "The module appeared to call sys.exit()".

Definition raised (traceback : string) : string :=
  "The following exception was raised:" +:+ Py.nl +:+ traceback.

Definition attribute_missing (module_name attr_name : string) : string :=
  "Module " +:+ quoted module_name +:+ " has no attribute "
    +:+ quoted attr_name.

End Ref.

(** ** Concrete hosts and command trees used in the examples *)

Module Fixture.

(** click 7's [Context.command_path]: the names from the root down,
    separated by spaces. *)
Fixpoint path (ctx : Ctx) : string :=
  let rv := match info_name ctx with PyStr s => s | _ => "" end in
  match ctx_parent ctx with
  | Some p => path p +:+ " " +:+ rv
  | None => rv
  end.

Definition click : ClickLib := {|
  join_options := fun os => (Py.join ", " os, false);
  make_metavar := fun _ => "<text>";
  collect_usage_pieces := fun _ => ["[OPTIONS]"];
  command_path := fun ctx => Py.lstrip (path ctx)
|}.

(** An engine that turns each parsed block into one node: the source name
    and the lines of the block. *)
Definition engine : DocEngine := {|
  node := string * list string;
  string2lines := fun s => map Py.rstrip (Py.splitlines false s);
  nested_parse_with_titles := fun vl env =>
    match vl with
    | [] => (Return [], env)
    | (_, source) :: _ => (Return [(source, map fst vl)], env)
    end
|}.

(** The same engine, except that parsing the block of [victim] fails. *)
Definition failing_engine (victim : string) : DocEngine := {|
  node := string * list string;
  string2lines := fun s => map Py.rstrip (Py.splitlines false s);
  nested_parse_with_titles := fun vl env =>
    match vl with
    | [] => (Return [], env)
    | (_, source) :: _ =>
        if String.eqb source victim then (Raise (PyExc "SystemMessage"), env)
        else (Return [(source, map fst vl)], env)
    end
|}.

Definition leaf (name : string) : Command :=
  mkCommand name None None [] None.

Definition group (name : string) (subs : list Command) : Command :=
  mkCommand name None None [] (Some (map (fun c => (cmd_name c, c)) subs)).

(** [cli] has the group [a], which has the commands [x] and [y]. *)
Definition cli : Command := group "cli" [group "a" [leaf "x"; leaf "y"]].

Definition abc : Command := group "abc" [leaf "a"; leaf "b"; leaf "c"].
Definition ba : Command := group "ba" [leaf "b"; leaf "a"].

Definition option_ (default : option DefaultValue) (show required : bool)
  : ClickOption :=
  mkOption "--count" [] [] false false None None default show required
           None None.

(** Modules are name spaces; [tool] holds [cli], importing [exits] calls
    [sys.exit], the empty name is refused and nothing else is found. *)
Definition importer : Importer := {|
  PyModule := list (string * PyObject);
  __import__ := fun name _ =>
    if String.eqb name "tool"
    then Imported [("cli", PyCommand cli); ("version", PyStr "1.0")]
    else if String.eqb name "exits" then ImportRaised SystemExit
    else if String.eqb name ""
    then ImportRaised (Exception "ValueError: Empty module name")
    else ImportRaised (Exception "ModuleNotFoundError");
  module_getattr := fun m attr =>
    snd <$> find (fun kv => String.eqb kv.1 attr) m
|}.

Definition env0 : Env := mkEnv (Dict {[ "docname" := PyStr "index" ]}).

(** The source names of the nodes a walk returns with [engine], in order:
    the command paths of the commands it rendered. *)
Definition rendered (walk : M (list (string * list string))) (env : Env)
  : list string :=
  match walk env with
  | Some (Return nodes, _) => map fst nodes
  | _ => []
  end.


(** A module [tool] with two commands: [inner], a plain command, and
    [outer], whose help text holds a [click] directive for [inner]. *)
Definition inner : Command := leaf "inner".

Definition outer : Command :=
  mkCommand "outer"
            (Some (".. click:: tool:inner" +:+ Py.nl +:+ "    :prog: inner"))
            None [] None.

Definition nesting_importer : Importer := {|
  PyModule := list (string * PyObject);
  __import__ := fun name _ =>
    if String.eqb name "tool"
    then Imported [("inner", PyCommand inner); ("outer", PyCommand outer)]
    else ImportRaised (Exception "ModuleNotFoundError");
  module_getattr := fun m attr =>
    snd <$> find (fun kv => String.eqb kv.1 attr) m
|}.

(** An engine that, as docutils does, runs the directives of the text it
    parses: where a block has the line [.. click:: tool:inner] it runs that
    [click] directive, with the [prog] [inner], in the environment it has at
    hand, and adds its nodes to the node of the block. *)
Definition nesting_engine : DocEngine := {|
  node := string * list string;
  string2lines := fun s => map Py.rstrip (Py.splitlines false s);
  nested_parse_with_titles := fun vl env =>
    match vl with
    | [] => (Return [], env)
    | (_, source) :: _ =>
        if existsb (fun l => String.eqb l.1 ".. click:: tool:inner") vl then
          match @ClickDirective.run click engine nesting_importer
                  (ClickDirective.mkDirective "tool:inner" (Some "inner")
                                              false false None) env with
          | Some (Return nodes, env') =>
              (Return ((source, map fst vl) :: nodes), env')
          | Some (Raise e, env') => (Raise e, env')
          | None => (Raise (PyExc "RecursionError"), env)
          end
        else (Return [(source, map fst vl)], env)
    end
|}.

End Fixture.

(** * Properties *)

(** ** Strings *)

#[local] Arguments String.append !_ _ : simpl nomatch.
#[local] Arguments Py.is_linebreak : simpl never.
#[local] Arguments Py.is_space : simpl never.
#[local] Arguments Py.is_cr : simpl never.
#[local] Arguments Py.is_lf : simpl never.

Section StringFacts.

Lemma str_app_empty_r (s : string) : s +:+ "" = s.
Proof. induction s; simpl; congruence. Qed.

Lemma str_app_assoc (a b c : string) : (a +:+ b) +:+ c = a +:+ b +:+ c.
Proof. induction a; simpl; congruence. Qed.

Lemma str_app_inv_head (p a b : string) : p +:+ a = p +:+ b -> a = b.
Proof. induction p; simpl; intros E; [done|]. injection E; auto. Qed.

Lemma join_empty_cons (x : string) (xs : list string) :
  Py.join "" (x :: xs) = x +:+ Py.join "" xs.
Proof.
  unfold Py.join. destruct xs as [|y ys]; simpl.
  - by rewrite str_app_empty_r.
  - done.
Qed.

End StringFacts.

(** ** The model at work *)

Example splitlines_demo :
  Py.splitlines false ("a" +:+ String (Py.chr 13) Py.nl +:+ "b" +:+ Py.nl)
  = ["a"; "b"]
  /\ Py.splitlines true ("a" +:+ String (Py.chr 13) Py.nl +:+ "b")
     = ["a" +:+ String (Py.chr 13) Py.nl; "b"].
Proof. split; reflexivity. Qed.

Example strip_demo : Py.strip "  a b  " = "a b" /\ Py.strip "   " = "".
Proof. split; reflexivity. Qed.

Example split_demo :
  Py.split "," "c, x,a" = ["c"; " x"; "a"]
  /\ Py.split "," "" = [""]
  /\ Py.split1 ":" "pkg.mod:a:b" = ["pkg.mod"; "a:b"]
  /\ Py.split1 ":" "pkg.mod" = ["pkg.mod"].
Proof. repeat split; reflexivity. Qed.

Example indent_demo :
  _indent ("a" +:+ Py.nl +:+ Py.nl +:+ "  " +:+ Py.nl +:+ "b") 1
  = "    a" +:+ Py.nl +:+ Py.nl +:+ "  " +:+ Py.nl +:+ "    b".
Proof. reflexivity. Qed.

Example ending_demo :
  Lines.ending ("ab" +:+ String (Py.chr 13) Py.nl) = String (Py.chr 13) Py.nl
  /\ Lines.ending (Py.nl +:+ Py.nl) = Py.nl
  /\ Lines.ending "ab" = "".
Proof. repeat split; reflexivity. Qed.

(** A command with one option, one argument and one sub-command, rendered
    without nesting. *)
Example format_command_demo :
  let count := mkOption "--count" ["-c"] [] false false
                        (Some "Number of greetings.") None
                        (Some (DScalar (SInt 3))) true true None
                        (Some "COUNT") in
  let hello := mkCommand "hello" (Some "Greets.") None
                         [POption count; PArgument (mkArgument "NAME" true 1 None)]
                         (Some [("sub", Fixture.leaf "sub")]) in
  @_format_command Fixture.click Fixture.engine
    (mkContext hello (PyStr "hello") None) false None
  = Return
    [".. program:: hello"; "";
     "Synopsis"; "--------"; ""; ""; "**hello** [OPTIONS]"; "";
     "Description"; "-----------"; ""; "Greets."; "";
     "Options"; "-------"; "";
     ".. option:: --count, -c <text>"; "";
     "    Number of greetings.  [default: 3; required]"; "";
     "Arguments"; "---------"; "";
     ".. option:: NAME"; ""; "    Required argument"; "";
     "Environment variables"; "---------------------"; "";
     ".. envvar:: COUNT"; "";
     "    Provide a default for :option:`--count`"; "";
     "Commands"; "--------"; ""; ".. object:: sub"; ""].
Proof. reflexivity. Qed.

(** ** [splitlines] and the relation [lines] *)

Module LinesFacts.
Import Lines.

Lemma all_chars_app p (a b : string) :
  all_chars p (a +:+ b) = all_chars p a && all_chars p b.
Proof.
  induction a as [|c a IH]; simpl; [done|].
  rewrite IH. by rewrite andb_assoc.
Qed.

Lemma cr_is_linebreak c : Py.is_cr c = true -> Py.is_linebreak c = true.
Proof.
  unfold Py.is_cr, Py.is_linebreak. intros E%Nat.eqb_eq. by rewrite E.
Qed.

Lemma lf_is_linebreak c : Py.is_lf c = true -> Py.is_linebreak c = true.
Proof.
  unfold Py.is_lf, Py.is_linebreak. intros E%Nat.eqb_eq. by rewrite E.
Qed.

Lemma linebreak_is_space c : Py.is_linebreak c = true -> Py.is_space c = true.
Proof.
  unfold Py.is_linebreak, Py.is_space.
  destruct (Py.ord c) as [|n]; [done|].
  do 133 (destruct n as [|n]; [done|]). done.
Qed.

(** A line without terminator is reported as it is. *)
Lemma splitlines_nobreak body :
  nobreak body = true -> body <> "" -> Py.splitlines true body = [body].
Proof.
  induction body as [|c body IH]; [done|].
  intros Hnb _. simpl in Hnb. apply andb_prop in Hnb as [Hc Hb].
  apply negb_true_iff in Hc. simpl. rewrite Hc.
  destruct body as [|c' body']; [done|].
  by rewrite IH.
Qed.

(** [splitlines] agrees with every cut of a text into lines. *)
Lemma splitlines_lines s ls : lines s ls -> Py.splitlines true s = ls.
Proof.
  induction 1 as [|body Hnb Hne|body term rest ls Hnb Hterm Hcr Hrest IH].
  - done.
  - by apply splitlines_nobreak.
  - induction body as [|c body IHb].
    + simpl. destruct Hterm as [c Hc|c1 c2 H1 H2].
      * simpl. rewrite Hc. destruct rest as [|c' rest'].
        -- by rewrite <- IH.
        -- destruct (Py.is_cr c) eqn:Ecr; simpl.
           ++ specialize (Hcr c eq_refl Ecr). simpl in Hcr. rewrite Hcr.
              by rewrite <- IH.
           ++ by rewrite <- IH.
      * simpl. rewrite (cr_is_linebreak _ H1), H1, H2. simpl. by rewrite IH.
    + simpl in Hnb. apply andb_prop in Hnb as [Hc Hb].
      apply negb_true_iff in Hc.
      simpl. rewrite Hc. simpl in IHb. by rewrite (IHb Hb).
Qed.

Lemma nobreak_cons c s :
  nobreak (String c s) = negb (Py.is_linebreak c) && nobreak s.
Proof. done. Qed.

Lemma lines_cons_char c t ls :
  Py.is_linebreak c = false -> t <> "" -> lines t ls ->
  lines (String c t)
        (match ls with [] => [String c ""] | l :: ls' => String c l :: ls' end).
Proof.
  intros Hc Hne Hl.
  destruct Hl as [|body Hnb _|body term rest ls Hnb Hterm Hcr Hrest].
  - done.
  - apply lines_last; [|done]. by rewrite nobreak_cons, Hc.
  - apply (lines_cons (String c body) term rest ls); try done.
    by rewrite nobreak_cons, Hc.
Qed.

(** [splitlines] cuts every text into lines. *)
Lemma lines_splitlines s : lines s (Py.splitlines true s).
Proof.
  cut (lines s (Py.splitlines true s)
       /\ forall c, lines (String c s) (Py.splitlines true (String c s))).
  { tauto. }
  induction s as [|c' s [IH1 IH2]].
  - split; [constructor|]. intros c. simpl.
    destruct (Py.is_linebreak c) eqn:Hc.
    + apply (lines_cons "" (String c "") "" []); try done; constructor; done.
    + apply lines_last; [|done]. by rewrite nobreak_cons, Hc.
  - split; [apply IH2|]. intros c.
    change (Py.splitlines true (String c (String c' s)))
      with (if Py.is_linebreak c
            then if Py.is_cr c && Py.is_lf c'
                 then String c (String c' "") :: Py.splitlines true s
                 else String c "" :: Py.splitlines true (String c' s)
            else match Py.splitlines true (String c' s) with
                 | [] => [String c ""]
                 | l :: ls => String c l :: ls
                 end).
    destruct (Py.is_linebreak c) eqn:Hc.
    + destruct (Py.is_cr c && Py.is_lf c') eqn:Hcrlf.
      * apply andb_prop in Hcrlf as [H1 H2].
        apply (lines_cons "" (String c (String c' "")) s); try done.
        by constructor.
      * apply (lines_cons "" (String c "") (String c' s)); try done.
        -- by constructor.
        -- intros c0 [= <-] Hcr. simpl. rewrite Hcr in Hcrlf. done.
    + by apply lines_cons_char.
Qed.

Lemma join_lines (ls : list string) s :
  lines s ls -> Py.join "" ls = s.
Proof.
  induction 1 as [|body Hnb Hne|body term rest ls Hnb Hterm Hcr Hrest IH].
  - done.
  - rewrite join_empty_cons. apply str_app_empty_r.
  - rewrite join_empty_cons, IH. apply str_app_assoc.
Qed.

(** The test [line.strip()] of the code singles out the blank lines. *)
Lemma strip_truthy line : Py.truthy (Py.strip line) = negb (blank line).
Proof.
  unfold Py.strip, blank. induction line as [|c l IH]; [done|].
  simpl. destruct (Py.is_space c) eqn:Hc; [done|].
  simpl. rewrite Hc. by destruct (Py.rstrip l).
Qed.

Lemma only_spaces_nobreak p : only_spaces p = true -> nobreak p = true.
Proof.
  unfold only_spaces, nobreak. induction p as [|c p IH]; [done|].
  simpl. intros [Hc Hp]%andb_prop. rewrite (IH Hp), andb_true_r.
  apply Nat.eqb_eq in Hc. unfold Py.is_linebreak. by rewrite Hc.
Qed.

Lemma only_spaces_starts_lf p s :
  only_spaces p = true -> p <> "" -> starts_lf (p +:+ s) = false.
Proof.
  destruct p as [|c p]; [done|]. simpl. intros [Hc _]%andb_prop _.
  apply Nat.eqb_eq in Hc. unfold Py.is_lf. by rewrite Hc.
Qed.

Lemma starts_lf_app a b : a <> "" -> starts_lf (a +:+ b) = starts_lf a.
Proof. by destruct a. Qed.

Lemma terminator_nonempty term : terminator term -> term <> "".
Proof. by destruct 1. Qed.

Lemma terminator_nobreak_app body term :
  terminator term -> body +:+ term <> "".
Proof. intros Ht. destruct body; [by apply terminator_nonempty|done]. Qed.

Section Indented.
Variable p : string.
Hypothesis p_spaces : only_spaces p = true.

Lemma indented_cases line :
  indented p line = line \/ (p <> "" /\ indented p line = p +:+ line).
Proof.
  unfold indented. destruct (blank line); [by left|].
  destruct p; [by left | by right].
Qed.

Lemma indented_starts_lf line rest :
  line <> "" ->
  starts_lf (indented p line +:+ rest) = true -> starts_lf line = true.
Proof.
  intros Hne. destruct (indented_cases line) as [->|[Hp ->]].
  - by rewrite starts_lf_app.
  - rewrite str_app_assoc. by rewrite only_spaces_starts_lf.
Qed.

Lemma join_indented_starts_lf s ls :
  lines s ls ->
  starts_lf (Py.join "" (map (indented p) ls)) = true -> starts_lf s = true.
Proof.
  destruct 1 as [|body Hnb Hne|body term rest ls Hnb Hterm Hcr Hrest].
  - done.
  - simpl map. rewrite join_empty_cons. apply indented_starts_lf. done.
  - simpl map. rewrite join_empty_cons. intros Hs.
    apply indented_starts_lf in Hs; [|by apply terminator_nobreak_app].
    rewrite <- str_app_assoc, starts_lf_app; [done|].
    by apply terminator_nobreak_app.
Qed.

(** Indenting line by line keeps the cut into lines. *)
Lemma lines_indented s ls :
  lines s ls ->
  lines (Py.join "" (map (indented p) ls)) (map (indented p) ls).
Proof.
  induction 1 as [|body Hnb Hne|body term rest ls Hnb Hterm Hcr Hrest IH].
  - constructor.
  - simpl map. rewrite join_empty_cons. simpl. rewrite str_app_empty_r.
    destruct (indented_cases body) as [->|[Hp ->]].
    + by constructor.
    + constructor.
      * unfold nobreak. rewrite all_chars_app.
        fold (nobreak p) (nobreak body).
        by rewrite (only_spaces_nobreak _ p_spaces), Hnb.
      * by destruct p.
  - simpl map. rewrite join_empty_cons.
    assert (Hcr' : forall c, term = String c "" -> Py.is_cr c = true ->
              starts_lf (Py.join "" (map (indented p) ls)) = false).
    { intros c Hc Hcrc. specialize (Hcr c Hc Hcrc).
      destruct (starts_lf (Py.join "" (map (indented p) ls))) eqn:E; [|done].
      apply (join_indented_starts_lf rest) in E; [congruence|done]. }
    destruct (indented_cases (body +:+ term)) as [->|[Hp ->]].
    + rewrite str_app_assoc. by constructor.
    + rewrite <- (str_app_assoc p body term), str_app_assoc.
      constructor; try done.
      unfold nobreak. rewrite all_chars_app.
      fold (nobreak p) (nobreak body).
      by rewrite (only_spaces_nobreak _ p_spaces), Hnb.
Qed.

End Indented.

Lemma mul_spaces n : only_spaces (Py.mul " " n) = true.
Proof.
  unfold Py.mul. induction (Z.to_nat n) as [|k IH]; [done|].
  simpl replicate. fold (Py.join "" (" " :: replicate k " ")).
  rewrite join_empty_cons. simpl. exact IH.
Qed.

Lemma indent_eq text level :
  _indent text level
  = Py.join "" (map (indented (Py.mul " " (4 * level)))
                    (Py.splitlines true text)).
Proof.
  unfold _indent. f_equal. apply map_ext. intros line.
  unfold indented. rewrite strip_truthy. by destruct (blank line).
Qed.

(** The lines of an indented text are the indented lines of the text. *)
Lemma splitlines_indent text level :
  Py.splitlines true (_indent text level)
  = map (indented (Py.mul " " (4 * level))) (Py.splitlines true text).
Proof.
  rewrite indent_eq.
  apply splitlines_lines, (lines_indented _ (mul_spaces _) text).
  apply lines_splitlines.
Qed.

Lemma indented_starts_blank p line rest :
  only_spaces p = true -> p <> "" -> line <> "" ->
  starts_blank (indented p line +:+ rest) = true.
Proof.
  intros Hp Hne Hl. unfold indented. destruct (blank line) eqn:Hb.
  - destruct line as [|c l]; [done|]. unfold blank in Hb. simpl in Hb.
    apply andb_prop in Hb as [Hc _]. simpl. exact Hc.
  - destruct p as [|c p']; [done|]. unfold only_spaces in Hp. simpl in Hp.
    apply andb_prop in Hp as [Hc _]. apply Nat.eqb_eq in Hc.
    simpl. unfold Py.is_space. by rewrite Hc.
Qed.

(** An indented text never begins with a visible character. *)
Lemma indent_starts_blank text : starts_blank (_indent text 1) = true.
Proof.
  rewrite indent_eq.
  destruct (lines_splitlines text)
    as [|body Hnb Hne|body term rest ls Hnb Hterm Hcr Hrest]; [done|..].
  - simpl map. rewrite join_empty_cons. by apply indented_starts_blank.
  - simpl map. rewrite join_empty_cons. apply indented_starts_blank; [done..|].
    by apply terminator_nobreak_app.
Qed.

End LinesFacts.

(** ** [_indent] *)

Section Indent.
Import Lines LinesFacts.

Lemma Forall2_map_self {A B} (R : A -> B -> Prop) (f : A -> B) (l : list A) :
  (forall x, R x (f x)) -> Forall2 R l (map f l).
Proof. intros HR. induction l; constructor; auto. Qed.

Lemma ending_spaces p s : only_spaces p = true -> ending (p +:+ s) = ending s.
Proof.
  induction p as [|c p IH]; [done|].
  unfold only_spaces. simpl. intros [Hc Hp]%andb_prop.
  apply Nat.eqb_eq in Hc.
  assert (Py.is_linebreak c = false) as -> by (unfold Py.is_linebreak; by rewrite Hc).
  by apply IH.
Qed.

(** The text is the concatenation of its lines, before and after. *)
Lemma join_splitlines text : Py.join "" (Py.splitlines true text) = text.
Proof. apply join_lines, lines_splitlines. Qed.

(** C8. Indentation rule: at the levels 1 and 2, line by line, a line of
    the result that comes from a non-blank line is that line with exactly
    4 (resp. 8) spaces in front, and a blank line is copied unchanged. *)
Theorem indent_levels_1_and_2 (text : string) :
  Forall2 (fun line out =>
             out = if blank line then line else "    " +:+ line)
          (Py.splitlines true text) (Py.splitlines true (_indent text 1))
  /\ Forall2 (fun line out =>
                out = if blank line then line else "        " +:+ line)
             (Py.splitlines true text) (Py.splitlines true (_indent text 2)).
Proof.
  split; rewrite splitlines_indent; apply Forall2_map_self; intros line;
    reflexivity.
Qed.

(** C9. A line made of whitespace only (spaces, tabs, its terminator)
    gets no prefix, like an empty line; for every text and level the
    result has as many lines as the text, every line keeps its
    terminator, and a line changes by a prefix of spaces at most. *)
Theorem indent_keeps_lines (text : string) (level : Z) :
  let ls := Py.splitlines true text in
  let out := Py.splitlines true (_indent text level) in
  length out = length ls
  /\ Forall2 (fun line o =>
                (if blank line then o = line else True)
                /\ ending o = ending line
                /\ exists p, o = p +:+ line /\ only_spaces p = true)
             ls out.
Proof.
  cbv zeta. rewrite splitlines_indent. split; [by rewrite length_map|].
  apply Forall2_map_self. intros line. unfold indented.
  destruct (blank line).
  - repeat split. by exists "".
  - repeat split.
    + apply ending_spaces, mul_spaces.
    + eexists. split; [done|]. apply mul_spaces.
Qed.

End Indent.

(** ** Sub-command selection *)

Section Selection.

Lemma dict_lookup_Some (m : list (string * Command)) name c :
  dict_lookup m name = Some c -> (name, c) ∈ m.
Proof.
  unfold dict_lookup. induction m as [|[k v] m IH]; [done|].
  simpl. destruct (String.eqb k name) eqn:E.
  - apply String.eqb_eq in E as ->. intros [= ->]. left.
  - intros Hm. right. by apply IH.
Qed.

Lemma dict_lookup_None (m : list (string * Command)) name :
  dict_lookup m name = None -> name ∉ map fst m.
Proof.
  unfold dict_lookup. induction m as [|[k v] m IH]; simpl.
  - intros _. apply not_elem_of_nil.
  - destruct (String.eqb k name) eqn:E; [done|].
    intros Hm. apply not_elem_of_cons. split; [|by apply IH].
    apply String.eqb_neq in E. congruence.
Qed.

Lemma insert_sorted_perm {A} (key : A -> string) x (l : list A) :
  insert_sorted key x l ≡ₚ x :: l.
Proof.
  induction l as [|y l IH]; simpl; [done|].
  destruct (String.leb (key x) (key y)); [done|].
  rewrite IH. apply Permutation_swap.
Qed.

Lemma sorted_perm {A} (key : A -> string) (l : list A) : sorted key l ≡ₚ l.
Proof.
  induction l as [|x l IH]; simpl; [done|].
  by rewrite insert_sorted_perm, IH.
Qed.

Lemma insert_sorted_Sorted {A} (key : A -> string) x (l : list A) :
  Sorted (by_key key) l -> Sorted (by_key key) (insert_sorted key x l).
Proof.
  induction 1 as [|y l Hl IH Hhd]; simpl.
  - by repeat constructor.
  - destruct (String.leb (key x) (key y)) eqn:E.
    + by repeat constructor.
    + constructor; [done|].
      assert (by_key key y x) as Hyx.
      { unfold by_key. destruct (String.leb_total (key x) (key y)); congruence. }
      destruct Hhd as [|z l Hz]; simpl.
      * by constructor.
      * destruct (String.leb (key x) (key z)); by constructor.
Qed.

Lemma sorted_Sorted {A} (key : A -> string) (l : list A) :
  Sorted (by_key key) (sorted key l).
Proof.
  induction l; simpl; [constructor|]. by apply insert_sorted_Sorted.
Qed.

(** C2. With an explicit list, the selection holds, for the names of the
    list that are keys of the sub-command mapping and in the order of the
    list, the entries the mapping has under these names; the other names
    are dropped.  With no list, it holds all the sub-commands in
    ascending order of their names.  The mapping [{a, b, c}] with the
    list ["c,x,a"] gives [c, a]; the mapping [{b, a}] with no list gives
    [a, b]. *)
Theorem filter_commands_selection :
  (forall (ctx : Ctx) (commands : string),
     let mapping := get_commands (ctx_command ctx) in
     let names := map Py.strip (Py.split "," commands) in
     Forall2 (fun name c => (name, c) ∈ mapping)
             (filter (fun name => name ∈ map fst mapping) names)
             (_filter_commands ctx (Some commands)))
  /\ (forall (ctx : Ctx),
        let mapping := get_commands (ctx_command ctx) in
        _filter_commands ctx None ≡ₚ map snd mapping
        /\ Sorted (fun a b => String.leb (cmd_name a) (cmd_name b) = true)
                  (_filter_commands ctx None))
  /\ (forall name parent,
        _filter_commands (mkContext Fixture.abc name parent) (Some "c,x,a")
        = [Fixture.leaf "c"; Fixture.leaf "a"])
  /\ (forall name parent,
        _filter_commands (mkContext Fixture.ba name parent) None
        = [Fixture.leaf "a"; Fixture.leaf "b"]).
Proof.
  split; [|split; [|split]].
  - intros ctx commands mapping names. unfold _filter_commands.
    fold mapping names. clearbody names.
    induction names as [|n names IH]; simpl; [constructor|].
    destruct (dict_lookup mapping n) as [c|] eqn:E.
    + rewrite filter_cons_True.
      * constructor; [by apply dict_lookup_Some|done].
      * apply dict_lookup_Some in E.
        apply (list_elem_of_fmap_2 fst) in E. done.
    + rewrite filter_cons_False; [done|]. by apply dict_lookup_None.
  - intros ctx mapping. split.
    + apply sorted_perm.
    + apply (sorted_Sorted cmd_name).
  - reflexivity.
  - reflexivity.
Qed.

End Selection.

(** ** The help record of an option *)

Section HelpRecord.
Context `{ClickLib}.

(** The help text before the annotation: the rich variant when the option
    has one, else its help string, else nothing. *)
Lemma help_text_or (h : option string) :
  match py_or h (Some "") with Some s => s | None => "" end = default "" h.
Proof. destruct h as [[|c s]|]; reflexivity. Qed.

Lemma percent_s_raises (d : Element) e :
  percent_s d = Raise e -> e = PyExc "TypeError".
Proof. destruct d as [v|[|v [|w l]]]; simpl; congruence. Qed.

Lemma map_result_percent_s_raises (l : list Element) e :
  map_result percent_s l = Raise e -> e = PyExc "TypeError".
Proof.
  induction l as [|d l IH]; simpl; [done|].
  destruct (percent_s d) as [y|e'] eqn:Ed; simpl.
  - destruct (map_result percent_s l) as [ys|e'']; simpl; [done|].
    intros [= <-]. by apply IH.
  - intros [= <-]. by apply percent_s_raises in Ed.
Qed.

(** A tuple element that is not of length 1 makes the comprehension
    raise. *)
Lemma map_result_percent_s_tuple (l : list Element) (t : list Scalar) :
  ETuple t ∈ l -> length t <> 1%nat ->
  map_result percent_s l = Raise (PyExc "TypeError").
Proof.
  intros Hin Ht. induction l as [|d l IH]; [by apply elem_of_nil in Hin|].
  apply elem_of_cons in Hin as [<-|Hin]; simpl.
  - by destruct t as [|v [|w t]].
  - destruct (percent_s d) as [y|e] eqn:Ed; simpl.
    + by rewrite (IH Hin).
    + by apply percent_s_raises in Ed as ->.
Qed.

Lemma map_result_percent_s_scalars (l : list Scalar) :
  map_result percent_s (map EScalar l) = Return (map str_of_scalar l).
Proof. induction l as [|v l IH]; simpl; [done|]. by rewrite IH. Qed.

(** C3 (where the code departs from it). An option whose default is shown
    and is a list or a tuple with an element that is itself a tuple, not of
    length 1 (the default of an option with [multiple=True] and
    [nargs=2]), has no annotation: the help record raises [TypeError],
    from the ['%s' % d] of the comprehension. *)
Theorem help_record_tuple_element_raises (opt : ClickOption)
        (l : list Element) (t : list Scalar) :
  opt_default opt = Some (DList l) \/ opt_default opt = Some (DTuple l) ->
  show_default opt = true ->
  ETuple t ∈ l -> length t <> 1%nat ->
  _get_help_record opt = Raise (PyExc "TypeError").
Proof.
  intros Hd Hs Hin Ht. unfold _get_help_record.
  destruct Hd as [-> | ->]; rewrite Hs; simpl;
    by rewrite (map_result_percent_s_tuple l t Hin Ht).
Qed.

(** X21. The help record of every option.  When the default is set and
    shown, it raises if formatting the default raises, and otherwise the
    help text is followed (after two spaces, if it is not empty) by
    ["[default: <value>]"], or ["[default: <value>; required]"] for a
    required option; when no default is shown, a required option gets
    ["[required]"] and any other keeps its help text as it is.  A list or
    tuple of plain values is shown joined with [", "].  With the default
    [[1, 2]] shown, not required and no help text the help is
    ["[default: 1, 2]"]; required with no default gives ["[required]"]; a
    shown default [X] and required give ["[default: X; required]"]. *)
Theorem help_record_annotation :
  (forall opt : ClickOption,
     let text := match rich_help opt with
                 | Some h => h
                 | None => default "" (opt_help opt)
                 end in
     let lead := if Py.truthy text then text +:+ "  " else "" in
     match opt_default opt, show_default opt with
     | Some d, true =>
         match format_default d with
         | Return value =>
             exists label,
               _get_help_record opt
               = Return (label,
                         lead +:+ "[default: " +:+ value
                              +:+ (if opt_required opt then "; required]"
                                   else "]"))
         | Raise e => _get_help_record opt = Raise e
         end
     | _, _ =>
         exists label,
           _get_help_record opt
           = Return (label,
                     if opt_required opt then lead +:+ "[required]" else text)
     end)
  /\ (forall l : list Scalar,
        format_default (DList (map EScalar l))
        = Return (Py.join ", " (map str_of_scalar l))
        /\ format_default (DTuple (map EScalar l))
           = Return (Py.join ", " (map str_of_scalar l)))
  /\ (exists label,
        _get_help_record
          (Fixture.option_ (Some (DList [EScalar (SInt 1); EScalar (SInt 2)]))
                           true false)
        = Return (label, "[default: 1, 2]"))
  /\ (forall show, exists label,
        _get_help_record (Fixture.option_ None show true)
        = Return (label, "[required]"))
  /\ (forall X : string, exists label,
        _get_help_record
          (Fixture.option_ (Some (DScalar (SStr X))) true true)
        = Return (label, "[default: " +:+ X +:+ "; required]")).
Proof.
  split; [|split; [|split; [|split]]].
  - intros opt. cbv zeta. unfold _get_help_record. rewrite help_text_or.
    destruct (opt_default opt) as [d|], (show_default opt);
      try (destruct (format_default d) as [value|e]; simpl; [|done]);
      destruct (opt_required opt); simpl; eexists;
      rewrite ?str_app_assoc; reflexivity.
  - intros l. unfold format_default.
    by rewrite map_result_percent_s_scalars.
  - by eexists.
  - intros []; by eexists.
  - intros X. eexists. unfold _get_help_record. simpl.
    by rewrite str_app_assoc.
Qed.

End HelpRecord.

(** The option of a command like [--point X Y], given several times, with
    the default [[(1, 2)]] shown. *)
Lemma help_record_tuple_element_raises_witness :
  @_get_help_record Fixture.click
    (Fixture.option_ (Some (DList [ETuple [SInt 1; SInt 2]])) true false)
  = Raise (PyExc "TypeError").
Proof.
  apply (@help_record_tuple_element_raises Fixture.click
           (Fixture.option_ (Some (DList [ETuple [SInt 1; SInt 2]])) true false)
           [ETuple [SInt 1; SInt 2]] [SInt 1; SInt 2]).
  - left. reflexivity.
  - reflexivity.
  - left.
  - discriminate.
Defined.

(** ** The module resolver *)

Section LoadModule.
Context `{Importer}.
Import AbstractClickDirective Ref.

Lemma split1_cases (s : string) :
  (no_colon s = true /\ Py.split1 ":" s = [s])
  \/ (exists module_name attr_name,
        no_colon module_name = true
        /\ s = module_name +:+ ":" +:+ attr_name
        /\ Py.split1 ":" s = [module_name; attr_name]).
Proof.
  induction s as [|c s IH].
  - by left.
  - simpl. destruct (Ascii.eqb c ":") eqn:Ec.
    + right. apply Ascii.eqb_eq in Ec as ->. by exists "", s.
    + destruct IH as [[Hn ->]|(m & a & Hm & -> & ->)].
      * left. split; [|done]. unfold no_colon in *. simpl. by rewrite Ec.
      * right. exists (String c m), a. repeat split.
        unfold no_colon in *. simpl. by rewrite Ec.
Qed.

Lemma no_colon_app m a : no_colon (m +:+ ":" +:+ a) = false.
Proof.
  unfold no_colon. rewrite LinesFacts.all_chars_app. simpl.
  apply andb_false_r.
Qed.

Lemma split1_colon m a :
  no_colon m = true -> Py.split1 ":" (m +:+ ":" +:+ a) = [m; a].
Proof.
  intros Hm. destruct (split1_cases (m +:+ ":" +:+ a))
    as [[Hn _]|(m' & a' & Hm' & E & ->)].
  - by rewrite no_colon_app in Hn.
  - revert m' Hm' E. induction m as [|c m IH]; intros m' Hm' E.
    + destruct m' as [|c' m']; simpl in E.
      * by injection E as ->.
      * injection E as <- _. by unfold no_colon in Hm'.
    + unfold no_colon in Hm. simpl in Hm. apply andb_prop in Hm as [Hc Hm].
      destruct m' as [|c' m']; simpl in E.
      * injection E as -> _. done.
      * injection E as -> E. unfold no_colon in Hm'. simpl in Hm'.
        apply andb_prop in Hm' as [_ Hm'].
        specialize (IH Hm m' Hm' E). by injection IH as -> ->.
Qed.

Lemma load_module_colon m a :
  no_colon m = true ->
  _load_module (m +:+ ":" +:+ a)
  = match __import__ m [a] with
    | Imported module =>
        match module_getattr module a with
        | None => Raise (error (attribute_missing m a))
        | Some value => Return value
        end
    | ImportRaised SystemExit =>
        Raise (error (import_failed a m +:+ called_exit))
    | ImportRaised (Exception traceback) =>
        Raise (error (import_failed a m +:+ raised traceback))
    end.
Proof.
  intros Hm. unfold _load_module. rewrite (split1_colon _ _ Hm).
  destruct (__import__ m [a]) as [module|[|tb]].
  - destruct (module_getattr module a); [done|].
    unfold attribute_missing, quoted. by rewrite !str_app_assoc.
  - unfold import_failed, quoted. by rewrite !str_app_assoc.
  - unfold import_failed, raised, quoted. by rewrite !str_app_assoc.
Qed.

Lemma load_module_no_colon s :
  no_colon s = true -> _load_module s = Raise (error (malformed s)).
Proof.
  intros Hs. unfold _load_module.
  destruct (split1_cases s) as [[_ ->]|(m & a & _ & -> & _)].
  - unfold malformed, quoted. by rewrite !str_app_assoc.
  - by rewrite no_colon_app in Hs.
Qed.

(** C4. Error discrimination of the resolver.  A reference without colon
    fails with the message that it is not of format "module:parser".
    Otherwise the reference is cut at its first colon: when the import
    raises, the failure names the attribute and the module and then says
    either that the module called [sys.exit] or which exception was raised,
    two messages that never coincide; when the module lacks the attribute,
    the failure quotes the module path and the attribute name; otherwise
    the value of the attribute is returned. *)
Theorem load_module_discrimination (module_path : string) :
  (no_colon module_path = true ->
   _load_module module_path = Raise (error (malformed module_path)))
  /\ (forall module_name attr_name,
        module_path = module_name +:+ ":" +:+ attr_name ->
        no_colon module_name = true ->
        match __import__ module_name [attr_name] with
        | ImportRaised SystemExit =>
            _load_module module_path
            = Raise (error (import_failed attr_name module_name
                              +:+ called_exit))
        | ImportRaised (Exception traceback) =>
            _load_module module_path
            = Raise (error (import_failed attr_name module_name
                              +:+ raised traceback))
        | Imported module =>
            match module_getattr module attr_name with
            | None =>
                _load_module module_path
                = Raise (error (attribute_missing module_name attr_name))
            | Some value => _load_module module_path = Return value
            end
        end)
  /\ (forall attr_name module_name traceback,
        import_failed attr_name module_name +:+ called_exit
        <> import_failed attr_name module_name +:+ raised traceback).
Proof.
  split; [apply load_module_no_colon|split].
  - intros m a -> Hm. rewrite (load_module_colon _ _ Hm).
    destruct (__import__ m [a]) as [module|[|tb]]; [|done..].
    by destruct (module_getattr module a).
  - intros a m tb E. apply str_app_inv_head in E. discriminate E.
Qed.

(** C10. A reference with a colon and an empty part is not malformed.
    ["<module>:"] reaches the attribute lookup and, the module being
    imported and having no attribute of empty name, fails there with the
    message of a missing attribute; [":<attr>"] reaches the import, where
    the empty module name is refused, and fails with the message of a
    failed import.  The message of a malformed reference is the result
    exactly when the reference has no colon. *)
Theorem load_module_empty_parts :
  (forall module_name module,
     no_colon module_name = true ->
     __import__ module_name [""] = Imported module ->
     module_getattr module "" = None ->
     _load_module (module_name +:+ ":")
     = Raise (error (attribute_missing module_name "")))
  /\ (forall attr_name traceback,
        __import__ "" [attr_name] = ImportRaised (Exception traceback) ->
        _load_module (":" +:+ attr_name)
        = Raise (error (import_failed attr_name "" +:+ raised traceback)))
  /\ (forall module_path,
        _load_module module_path = Raise (error (malformed module_path))
        <-> no_colon module_path = true).
Proof.
  split; [|split].
  - intros m module Hm Hi Ha.
    rewrite (load_module_colon m "" Hm : _load_module (m +:+ ":") = _).
    by rewrite Hi, Ha.
  - intros a tb Hi.
    rewrite (load_module_colon "" a eq_refl : _load_module (":" +:+ a) = _).
    by rewrite Hi.
  - intros s. split; [|apply load_module_no_colon].
    destruct (split1_cases s) as [[Hs _]|(m & a & Hm & -> & _)]; [done|].
    rewrite (load_module_colon _ _ Hm).
    destruct (__import__ m [a]) as [module|[|tb]].
    + destruct (module_getattr module a); discriminate.
    + discriminate.
    + discriminate.
Qed.

End LoadModule.

(** The resolver on the references ["tool"] and ["exits:cli"]. *)
Lemma load_module_discrimination_witness :
  (Ref.no_colon "tool" = true
   /\ @AbstractClickDirective._load_module Fixture.importer "tool"
      = Raise (DirectiveError (Ref.malformed "tool")))
  /\ @AbstractClickDirective._load_module Fixture.importer "exits:cli"
     = Raise (DirectiveError (Ref.import_failed "cli" "exits"
                                +:+ Ref.called_exit)).
Proof.
  split; [split; [reflexivity|]|].
  - apply (proj1 (@load_module_discrimination Fixture.importer "tool")).
    reflexivity.
  - apply (proj1 (proj2 (@load_module_discrimination Fixture.importer
                           "exits:cli")) "exits" "cli");
      reflexivity.
Defined.

(** The resolver on the references ["tool:"] and [":cli"]. *)
Lemma load_module_empty_parts_witness :
  @AbstractClickDirective._load_module Fixture.importer "tool:"
  = Raise (DirectiveError (Ref.attribute_missing "tool" ""))
  /\ @AbstractClickDirective._load_module Fixture.importer ":cli"
     = Raise (DirectiveError
                (Ref.import_failed "cli" ""
                   +:+ Ref.raised "ValueError: Empty module name")).
Proof.
  split.
  - eapply (proj1 (@load_module_empty_parts Fixture.importer) "tool");
      reflexivity.
  - apply (proj1 (proj2 (@load_module_empty_parts Fixture.importer)) "cli").
    reflexivity.
Defined.

(** ** The section headings of the command renderer *)

Section Headings.
Context `{ClickLib} `{DocEngine}.
Import Lines LinesFacts.

Ltac body_line :=
  unfold body_line, section_titles;
  rewrite !elem_of_cons, elem_of_nil;
  intros [E|[E|[E|[]]]]; discriminate E.

Lemma body_line_indent text : body_line (_indent text 1).
Proof.
  pose proof (indent_starts_blank text) as Hs.
  unfold body_line, section_titles.
  rewrite !elem_of_cons, elem_of_nil.
  intros [E|[E|[E|[]]]]; rewrite E in Hs; discriminate Hs.
Qed.

Lemma body_line_indented_lines (ls : list string) :
  Forall body_line (map (fun line => _indent line 1) ls).
Proof. apply Forall_map, Forall_forall. intros. apply body_line_indent. Qed.

Lemma body_line_option opt lines :
  _format_option opt = Return lines -> Forall body_line (lines ++ [""]).
Proof.
  unfold _format_option. destruct (_get_help_record opt) as [[label help]|e];
    simpl; [|done].
  intros [= <-]. destruct (Py.truthy _).
  - repeat (apply Forall_app; split); repeat constructor;
      try apply body_line_indented_lines; body_line.
  - repeat constructor; body_line.
Qed.

Lemma flat_map_result_Forall {A} (P : string -> Prop)
      (f : A -> result (list string)) (l : list A) out :
  (forall x ys, f x = Return ys -> Forall P ys) ->
  flat_map_result f l = Return out -> Forall P out.
Proof.
  intros Hf. revert out. induction l as [|x l IH]; intros out; simpl.
  - by intros [= <-].
  - destruct (f x) as [ys|e] eqn:Ex; simpl; [|done].
    destruct (flat_map_result f l) as [rest|e]; simpl; [|done].
    intros [= <-]. apply Forall_app. split; eauto.
Qed.

Lemma flat_map_result_nil {A} (f : A -> result (list string)) (l : list A) out :
  (forall x ys, f x = Return ys -> ys <> []) ->
  flat_map_result f l = Return out -> (out = [] <-> l = []).
Proof.
  intros Hf. destruct l as [|x l]; simpl.
  - by intros [= <-].
  - destruct (f x) as [ys|e] eqn:Ex; simpl; [|done].
    destruct (flat_map_result f l) as [rest|e]; simpl; [|done].
    intros [= <-]. split; [|done]. intros E.
    apply app_eq_nil in E as [E _]. by apply Hf in Ex.
Qed.

Lemma body_line_options ctx lines :
  _format_options ctx = Return lines -> Forall body_line lines.
Proof.
  unfold _format_options. apply flat_map_result_Forall.
  intros opt ys. destruct (_format_option opt) as [ls|e] eqn:E; simpl; [|done].
  intros [= <-]. by apply (body_line_option opt).
Qed.

Lemma body_line_argument arg : Forall body_line (_format_argument arg ++ [""]).
Proof.
  unfold _format_argument.
  repeat constructor; try apply body_line_indent; body_line.
Qed.

Lemma body_line_envvar param : Forall body_line (_format_envvar param ++ [""]).
Proof.
  unfold _format_envvar.
  repeat constructor; try apply body_line_indent; body_line.
Qed.

Lemma body_line_subcommand command :
  Forall body_line (_format_subcommand command ++ [""]).
Proof.
  unfold _format_subcommand. destruct (truthy_opt _).
  - repeat (apply Forall_app; split); repeat constructor;
      try apply body_line_indented_lines; body_line.
  - repeat constructor; body_line.
Qed.

Lemma body_line_blocks {A} (f : A -> list string) (l : list A) :
  (forall x, Forall body_line (f x)) -> Forall body_line (flat_map f l).
Proof.
  intros Hf. induction l as [|x l IH]; simpl; [constructor|].
  apply Forall_app. auto.
Qed.

Lemma blocks_nil {A} (f : A -> list string) (l : list A) :
  flat_map (fun x => f x ++ [""]) l = [] <-> l = [].
Proof.
  split; [|by intros ->]. destruct l as [|x l]; [done|]. simpl.
  intros E. apply app_eq_nil in E as [E _]. by apply app_eq_nil in E as [_ ?].
Qed.

Lemma nonempty_elem {A} (l : list A) : l <> [] <-> exists x, x ∈ l.
Proof.
  destruct l as [|x l].
  - split; [done|]. intros [x Hx]. by apply elem_of_nil in Hx.
  - split; [|done]. intros _. exists x. left.
Qed.

(** A heading slot: the title, its underline and a blank line when the
    section has lines, nothing otherwise. *)
Lemma heading_slot (title underline h : string) (lines : list string) :
  h ∈ match lines with [] => [] | _ => [title; underline; ""] end
  <-> lines <> [] /\ (h = title \/ h = underline \/ h = "").
Proof.
  destruct lines; simpl.
  - rewrite elem_of_nil. tauto.
  - rewrite !elem_of_cons, elem_of_nil. intuition congruence.
Qed.

Lemma options_nonempty ctx lines :
  _format_options ctx = Return lines ->
  lines <> []
  <-> exists o, POption o ∈ cmd_params (ctx_command ctx)
                /\ hidden o <> Some true.
Proof.
  unfold _format_options. intros Hl.
  apply flat_map_result_nil in Hl.
  2: { intros opt ys. destruct (_format_option opt) as [ls|e]; simpl; [|done].
       intros [= <-] E. by apply app_eq_nil in E as [_ ?]. }
  rewrite Hl, nonempty_elem. split.
  - intros [o Ho]. apply list_elem_of_omap in Ho as ([o'|a] & Hin & E); [|done].
    exists o'. split; [done|]. destruct (hidden o') as [[]|]; done.
  - intros (o & Hin & Hh). exists o. apply list_elem_of_omap.
    exists (POption o). split; [done|]. by destruct (hidden o) as [[]|].
Qed.

Lemma arguments_nonempty ctx :
  _format_arguments ctx <> []
  <-> exists a, PArgument a ∈ cmd_params (ctx_command ctx).
Proof.
  unfold _format_arguments. rewrite blocks_nil, nonempty_elem. split.
  - intros [a Ha]. apply list_elem_of_omap in Ha as ([o|a'] & Hin & E); [done|].
    by exists a'.
  - intros (a & Hin). exists a. apply list_elem_of_omap.
    by exists (PArgument a).
Qed.

Lemma envvars_nonempty ctx :
  _format_envvars ctx <> []
  <-> exists p v, p ∈ cmd_params (ctx_command ctx)
                  /\ envvar p = Some v /\ v <> "".
Proof.
  unfold _format_envvars. rewrite blocks_nil, nonempty_elem. split.
  - intros [p Hp]. apply list_elem_of_filter in Hp as [Ht Hin].
    destruct (envvar p) as [v|] eqn:E; [|done].
    exists p, v. repeat split; try done. by destruct v.
  - intros (p & v & Hin & E & Hv). exists p. apply list_elem_of_filter.
    split; [|done]. rewrite E. by destruct v.
Qed.

Lemma sections_elem (h : string) (O A E C : list string) :
  h ∈ section_titles ->
  Forall body_line O -> Forall body_line A -> Forall body_line E ->
  Forall body_line C ->
  h ∈ (match O with [] => [] | _ => ["Options"; "-------"; ""] end ++ O)
        ++ (match A with [] => [] | _ => ["Arguments"; "---------"; ""] end
              ++ A)
        ++ (match E with
            | [] => []
            | _ => ["Environment variables"; "---------------------"; ""]
            end ++ E)
        ++ C
  <-> (h = "Options" /\ O <> [])
      \/ (h = "Arguments" /\ A <> [])
      \/ (h = "Environment variables" /\ E <> []).
Proof.
  intros Hh HO HA HE HC. rewrite Forall_forall in HO, HA, HE, HC.
  assert (HO' : h ∉ O) by (intros ?; by apply (HO h)).
  assert (HA' : h ∉ A) by (intros ?; by apply (HA h)).
  assert (HE' : h ∉ E) by (intros ?; by apply (HE h)).
  assert (HC' : h ∉ C) by (intros ?; by apply (HC h)).
  clear HO HA HE HC.
  rewrite !elem_of_app, !heading_slot.
  unfold section_titles in Hh.
  rewrite !elem_of_cons, elem_of_nil in Hh.
  destruct Hh as [->|[->|[->|[]]]]; split; intros Hin.
  all: repeat match goal with
         | H : _ \/ _ |- _ => destruct H as [H|H]
         | H : _ /\ _ |- _ => destruct H as [? H]
         end; try discriminate; try tauto.
Qed.

Lemma output_title (path : string) (usage description sections : list string)
      (title : string) :
  title ∈ section_titles -> title ∉ usage -> title ∉ description ->
  title ∈ [".. program:: " +:+ path; ""; "Synopsis"; "--------"; ""]
            ++ usage ++ ["Description"; "-----------"; ""]
            ++ description ++ sections
  <-> title ∈ sections.
Proof.
  intros Ht Hu Hd.
  rewrite !elem_of_app, !elem_of_cons, elem_of_nil.
  unfold section_titles in Ht. rewrite !elem_of_cons, elem_of_nil in Ht.
  split; [|tauto].
  destruct Ht as [->|[->|[->|[]]]];
    intros [Hin|[Hin|[Hin|[Hin|Hin]]]]; try done;
    repeat (destruct Hin as [Hin|Hin]; try discriminate Hin); done.
Qed.

(** C5 (as amended). Whenever the renderer yields its lines, they are the
    program line, the synopsis and the description, which carry the
    command's own usage and help text, followed by the sections: there the
    line ["Options"] occurs exactly when the command has an option that is
    not hidden, ["Arguments"] exactly when it has an argument, and
    ["Environment variables"] exactly when one of its parameters names an
    environment variable.  For a command whose usage and help text do not
    spell such a title on a line of their own, this is where the title
    occurs in the whole output. *)
Theorem section_headings (ctx : Ctx) (show_nested : bool)
        (commands : option string) (output : list string) :
  _format_command ctx show_nested commands = Return output ->
  let params := cmd_params (ctx_command ctx) in
  exists sections,
    output
    = [".. program:: " +:+ command_path ctx; "";
       "Synopsis"; "--------"; ""]
        ++ _format_usage ctx
        ++ ["Description"; "-----------"; ""]
        ++ _format_description ctx
        ++ sections
    /\ ("Options" ∈ sections
        <-> exists o, POption o ∈ params /\ hidden o <> Some true)
    /\ ("Arguments" ∈ sections <-> exists a, PArgument a ∈ params)
    /\ ("Environment variables" ∈ sections
        <-> exists p v, p ∈ params /\ envvar p = Some v /\ v <> "")
    /\ (forall title,
          title ∈ section_titles ->
          title ∉ _format_usage ctx -> title ∉ _format_description ctx ->
          (title ∈ output <-> title ∈ sections)).
Proof.
  unfold _format_command.
  destruct (_format_options ctx) as [options|e] eqn:Hoptions;
    unfold and_then; [|done].
  intros [= <-]. cbv zeta. eexists. split; [reflexivity|].
  pose proof (body_line_options _ _ Hoptions) as HO.
  assert (HA : Forall body_line (_format_arguments ctx)).
  { apply body_line_blocks, body_line_argument. }
  assert (HE : Forall body_line (_format_envvars ctx)).
  { apply body_line_blocks, body_line_envvar. }
  assert (HC : Forall body_line
                 (if show_nested then []
                  else
                    (match _filter_commands ctx commands with
                     | [] => []
                     | _ => ["Commands"; "--------"; ""]
                     end)
                      ++ flat_map (fun c => _format_subcommand c ++ [""])
                                  (_filter_commands ctx commands))).
  { destruct show_nested; [constructor|]. apply Forall_app. split.
    - destruct (_filter_commands ctx commands); repeat constructor; body_line.
    - apply body_line_blocks, body_line_subcommand. }
  rewrite <- (options_nonempty _ _ Hoptions), <- arguments_nonempty,
    <- envvars_nonempty.
  split; [|split; [|split; [|]]].
  4: { intros title Ht Hu Hd.
       exact (output_title (command_path ctx) _ _ _ title Ht Hu Hd). }
  all: split; intros Hin.
  all: try (apply (sections_elem _ _ _ _ _) in Hin;
            [|unfold section_titles; rewrite !elem_of_cons; tauto|done..];
            destruct Hin as [[E ?]|[[E ?]|[E ?]]]; (done || discriminate E)).
  all: apply sections_elem;
    [unfold section_titles; rewrite !elem_of_cons; tauto|done..|tauto].
Qed.

End Headings.

(** The renderer on a command without parameters and without help text:
    no line of the output reads ["Options"]. *)
Lemma section_headings_witness :
  exists output,
    @_format_command Fixture.click Fixture.engine
      (mkContext (Fixture.leaf "x") (PyStr "x") None) false None
    = Return output
    /\ "Options" ∉ output.
Proof.
  eexists. split; [reflexivity|].
  destruct (@section_headings Fixture.click Fixture.engine
              (mkContext (Fixture.leaf "x") (PyStr "x") None) false None
              _ eq_refl)
    as (sections & _ & HO & _ & _ & Hwhole).
  intros Hin. apply Hwhole in Hin.
  - apply HO in Hin as (o & Ho & _). by apply elem_of_nil in Ho.
  - unfold Lines.section_titles. left.
  - change (@_format_usage Fixture.click
              (mkContext (Fixture.leaf "x") (PyStr "x") None))
      with [""; "**x** [OPTIONS]"; ""].
    rewrite !elem_of_cons, elem_of_nil.
    intros [E|[E|[E|[]]]]; discriminate E.
  - apply not_elem_of_nil.
Defined.

(** C5 (as stated) fails: a command without any parameter whose help text
    is the two lines [Options] and [-------] has these lines in the output,
    in the description, where they read as a heading. *)
Lemma help_text_heading_is_copied :
  let command :=
    mkCommand "x" (Some ("Options" +:+ Py.nl +:+ "-------")) None [] None in
  let output :=
    [".. program:: x"; "";
     "Synopsis"; "--------"; ""; ""; "**x** [OPTIONS]"; "";
     "Description"; "-----------"; ""; "Options"; "-------"; ""] in
  cmd_params command = []
  /\ @_format_command Fixture.click Fixture.engine
       (mkContext command (PyStr "x") None) false None
     = Return output
  /\ "Options" ∈ output.
Proof.
  cbv zeta. split; [reflexivity|]. split; [reflexivity|].
  rewrite !elem_of_cons. tauto.
Qed.

(** ** The tree walker *)

Section Walker.
Context `{ClickLib} `{DocEngine}.
Import AbstractClickDirective ClickDirective Walk.

Lemma generate_nodes_step fuel name command parent show_nested commands env :
  _generate_nodes (S fuel) name command parent show_nested commands env
  = (let* ctx := lift (_get_context name command parent) in
     let* children := render_block ctx show_nested commands in
     if show_nested then
       extend_with (fun sub => _generate_nodes fuel (PyStr (cmd_name sub))
                                 (PyCommand sub) (Some ctx) show_nested None)
                   (_filter_commands ctx commands) children
     else ret children)%M env.
Proof.
  simpl. unfold bind, lift, render_block, bind, lift.
  destruct (_get_context name command parent) as [ctx|e]; [|done].
  by destruct (_format_command ctx show_nested commands) as [lines|e].
Qed.

(** A block either raises while it is formatted, the environment untouched,
    or is handed to the parser. *)
Lemma render_block_cases ctx show_nested commands env :
  (exists e, _format_command ctx show_nested commands = Raise e
             /\ render_block ctx show_nested commands env = Some (Raise e, env))
  \/ (exists lines,
        _format_command ctx show_nested commands = Return lines
        /\ render_block ctx show_nested commands env
           = Some (nested_parse_with_titles
                     (map (fun line => (line, command_path ctx)) lines) env)).
Proof.
  unfold render_block, bind, lift, call.
  destruct (_format_command ctx show_nested commands) as [lines|e]; eauto.
Qed.

Lemma extend_with_ext (f g : Command -> M (list node)) cs children env :
  Forall (fun c => forall env, f c env = g c env) cs ->
  extend_with f cs children env = extend_with g cs children env.
Proof.
  intros Hfg. revert children env.
  induction Hfg as [|c cs Hc _ IH]; intros children env; [done|].
  simpl. unfold bind. rewrite Hc.
  destruct (g c env) as [[[sub|e] env']|]; [apply IH|done..].
Qed.

Lemma height_sub (c c' : Command) key :
  (key, c') ∈ get_commands c -> (height c' < height c)%nat.
Proof.
  destruct c as [n h sh ps [subs|]]; simpl; [|by intros ?%elem_of_nil].
  unfold get_commands; simpl. intros Hin. apply Nat.lt_succ_r.
  induction subs as [|[k c0] subs IH]; [by apply elem_of_nil in Hin|].
  apply elem_of_cons in Hin as [[= <- <-]|Hin]; simpl; [lia|].
  specialize (IH Hin). lia.
Qed.

(** Whatever the filter, the selection holds sub-commands of the command. *)
Lemma filter_commands_sub ctx commands :
  Forall (fun c => height c < height (ctx_command ctx))%nat
         (_filter_commands ctx commands).
Proof.
  apply Forall_forall. intros c Hc. destruct commands as [names|]; simpl in Hc.
  - apply list_elem_of_omap in Hc as (n & _ & Hn).
    apply dict_lookup_Some in Hn. by apply height_sub in Hn.
  - rewrite sorted_perm in Hc.
    apply list_elem_of_fmap in Hc as ([k c'] & -> & Hin).
    by apply height_sub in Hin.
Qed.

Lemma extend_with_total (f : Command -> M (list node)) cs children env :
  Forall (fun c => forall env, exists r env', f c env = Some (r, env')) cs ->
  exists r env', extend_with f cs children env = Some (r, env').
Proof.
  intros Hf. revert children env.
  induction Hf as [|c cs Hc _ IH]; intros children env; simpl.
  - by eexists _, _.
  - unfold bind. destruct (Hc env) as ([sub|e] & env' & ->).
    + apply IH.
    + by eexists _, _.
Qed.

Lemma render_block_total ctx show_nested commands env :
  exists r env1, render_block ctx show_nested commands env = Some (r, env1).
Proof.
  destruct (render_block_cases ctx show_nested commands env)
    as [(e & _ & ->)|(lines & _ & ->)]; [by eexists _, _|].
  destruct (nested_parse_with_titles _ env). by eexists _, _.
Qed.

(** With one unit of fuel per level of the tree the walker comes back. *)
Lemma generate_nodes_total fuel name command parent show_nested commands env :
  (levels command <= fuel)%nat ->
  exists r env',
    _generate_nodes fuel name command parent show_nested commands env
    = Some (r, env').
Proof.
  revert name command parent commands env.
  induction fuel as [|fuel IH]; intros name command parent commands env Hf.
  - destruct command; simpl in Hf; lia.
  - rewrite generate_nodes_step. unfold bind, lift, _get_context.
    destruct command as [| |c]; try by eexists _, _.
    destruct (render_block_total (mkContext c name parent) show_nested
                commands env) as ([children|e] & env1 & ->);
      [|by eexists _, _].
    destruct show_nested; [|by eexists _, _].
    apply extend_with_total.
    eapply Forall_impl; [apply filter_commands_sub|].
    intros sub Hsub env2. apply IH. simpl in *. lia.
Qed.

(** Below the root the walker passes no filter: it walks every
    descendant. *)
Lemma generate_nodes_unfiltered fuel name c parent env :
  _generate_nodes fuel (PyStr name) (PyCommand c) parent true None env
  = unfiltered fuel name c parent env.
Proof.
  revert name c parent env.
  induction fuel as [|fuel IH]; intros name c parent env; [done|].
  rewrite generate_nodes_step. simpl. unfold bind, lift.
  destruct (render_block _ true None env) as [[[children|e] env1]|]; [|done..].
  apply extend_with_ext, Forall_forall. intros sub _ env2. apply IH.
Qed.

End Walker.

Section NestedWalk.
Context `{ClickLib} `{DocEngine}.
Import AbstractClickDirective ClickDirective Walk.

(** C1 (as amended). With [show-nested] set the walker comes back, having
    parsed the block of the command and then, for the sub-commands the
    filter selects from this command (same policy as the renderer) and in
    that order, appended the nodes of the sub-command; the filter is used at
    this first level only, each selected sub-command being walked with all
    its descendants, in the order of their names. *)
Theorem nested_walk_selection (fuel : nat) (name : PyObject) (c : Command)
        (parent : option Ctx) (commands : option string) (env : Env) :
  (height c <= fuel)%nat ->
  let ctx := mkContext c name parent in
  (exists r env',
      _generate_nodes (S fuel) name (PyCommand c) parent true commands env
      = Some (r, env'))
  /\ _generate_nodes (S fuel) name (PyCommand c) parent true commands env
     = (let* children := render_block ctx true commands in
        extend_with (fun sub => unfiltered fuel (cmd_name sub) sub (Some ctx))
                    (_filter_commands ctx commands) children)%M env.
Proof.
  intros Hfuel ctx. split.
  - apply generate_nodes_total. simpl. lia.
  - rewrite generate_nodes_step. simpl. unfold bind, lift. fold ctx.
    destruct (render_block ctx true commands env)
      as [[[children|e] env1]|]; [|done..].
    apply extend_with_ext, Forall_forall. intros sub _ env2.
    apply generate_nodes_unfiltered.
Qed.

End NestedWalk.

(** The walk of [cli] with the filter ["a"] and [show-nested]. *)
Lemma nested_walk_selection_witness :
  (height Fixture.cli <= 2)%nat
  /\ exists r env',
      @ClickDirective._generate_nodes Fixture.click Fixture.engine 3
        (PyStr "cli") (PyCommand Fixture.cli) None true (Some "a") Fixture.env0
      = Some (r, env').
Proof.
  assert (Hh : (height Fixture.cli <= 2)%nat) by (vm_compute; lia).
  split; [exact Hh|].
  exact (proj1 (@nested_walk_selection Fixture.click Fixture.engine 2
                  (PyStr "cli") Fixture.cli None (Some "a") Fixture.env0 Hh)).
Defined.

(** C1 (as stated) fails: with the filter ["a"], the walk of [cli] renders
    the commands [x] and [y] of the group [a], which the filter ["a"] does
    not select from [a]; the walk the claim describes stops at [a]. *)
Lemma walker_filters_root_only :
  let ctx_cli := mkContext Fixture.cli (PyStr "cli") None in
  let a := Fixture.group "a" [Fixture.leaf "x"; Fixture.leaf "y"] in
  let ctx_a := mkContext a (PyStr "a") (Some ctx_cli) in
  let code := @ClickDirective._generate_nodes Fixture.click Fixture.engine 3
                (PyStr "cli") (PyCommand Fixture.cli) None true (Some "a") in
  let claim := @Walk.as_specified Fixture.click Fixture.engine 3
                 (PyStr "cli") (PyCommand Fixture.cli) None true (Some "a") in
  _filter_commands ctx_cli (Some "a") = [a]
  /\ _filter_commands ctx_a (Some "a") = []
  /\ Fixture.rendered code Fixture.env0 = ["cli"; "cli a"; "cli a x"; "cli a y"]
  /\ Fixture.rendered claim Fixture.env0 = ["cli"; "cli a"]
  /\ code Fixture.env0 <> claim Fixture.env0.
Proof.
  cbv zeta.
  assert (Hcode :
    Fixture.rendered
      (@ClickDirective._generate_nodes Fixture.click Fixture.engine 3
         (PyStr "cli") (PyCommand Fixture.cli) None true (Some "a"))
      Fixture.env0 = ["cli"; "cli a"; "cli a x"; "cli a y"])
    by (vm_compute; reflexivity).
  assert (Hclaim :
    Fixture.rendered
      (@Walk.as_specified Fixture.click Fixture.engine 3
         (PyStr "cli") (PyCommand Fixture.cli) None true (Some "a"))
      Fixture.env0 = ["cli"; "cli a"])
    by (vm_compute; reflexivity).
  split; [reflexivity|]. split; [reflexivity|].
  split; [exact Hcode|]. split; [exact Hclaim|].
  intros E. unfold Fixture.rendered in Hcode, Hclaim.
  rewrite E, Hclaim in Hcode. discriminate Hcode.
Qed.

(** ** The directives and the build environment *)

Section OptionsDirective.
Context `{ClickLib} `{DocEngine} `{Importer}.
Import AbstractClickDirective ClickOptionsDirective.

(** C7. Without a module reference the [click-options] directive takes the
    current command from [env.temp_data]: when none is bound there (or
    [None] is) it fails with the message that it can only be used within a
    [click] directive, leaving the environment as it was; it renders the
    options of the command that is bound; and whenever it returns nodes, a
    command was bound. *)
Theorem options_directive_needs_context (self : Directive) (env : Env) :
  arguments self = None ->
  let current := mapping_lookup (temp_data env) "click:command" in
  let prog_name :=
    match prog self with
    | Some p => PyStr p
    | None => mapping_get (temp_data env) "click:prog" (PyStr "")
    end in
  (current = None \/ current = Some PyNone ->
   run self env
   = Some (Raise (error ("The " +:+ name self
                           +:+ " directive can only be used within a `click` directive.")),
           env))
  /\ (forall command,
        current = Some command -> command <> PyNone ->
        run self env = _generate_nodes prog_name command env)
  /\ (forall nodes env',
        run self env = Some (Return nodes, env') ->
        exists command, current = Some command /\ command <> PyNone).
Proof.
  intros Hargs current prog_name. unfold run. rewrite Hargs.
  unfold bind, get_temp_data, ret, mapping_get. fold prog_name current.
  destruct current as [command|].
  - split; [|split].
    + by intros [?|[= ->]].
    + intros ? [= <-] Hc. by destruct command.
    + intros nodes env' Hrun. exists command. split; [done|].
      intros ->. discriminate Hrun.
  - split; [|split; [done|]].
    + intros _. reflexivity.
    + intros nodes env' Hrun. discriminate Hrun.
Qed.

End OptionsDirective.

(** [click-options] with no argument at the top of a document. *)
Lemma options_directive_needs_context_witness :
  @ClickOptionsDirective.run Fixture.click Fixture.engine Fixture.importer
    (ClickOptionsDirective.mkDirective None None "click-options") Fixture.env0
  = Some (Raise (DirectiveError
                   "The click-options directive can only be used within a `click` directive."),
          Fixture.env0).
Proof.
  apply (proj1 (@options_directive_needs_context
                  Fixture.click Fixture.engine Fixture.importer
                  (ClickOptionsDirective.mkDirective None None "click-options")
                  Fixture.env0 eq_refl)).
  left. reflexivity.
Defined.

Section FullDirective.
Context `{ClickLib} `{DocEngine} `{Importer}.
Import AbstractClickDirective ClickDirective Walk State.

(** The directives the parser runs may bind keys of [env.temp_data], which
    for a ChainMap changes its first map; the maps below stay. *)
Hypothesis parser_keeps_below :
  forall vl env,
    below (temp_data (nested_parse_with_titles vl env).2)
    = below (temp_data env).

Lemma extend_with_below (f : Command -> M (list node)) cs children env r env' :
  Forall (fun c => forall env r env',
            f c env = Some (r, env') ->
            below (temp_data env') = below (temp_data env)) cs ->
  extend_with f cs children env = Some (r, env') ->
  below (temp_data env') = below (temp_data env).
Proof.
  intros Hf. revert children env.
  induction Hf as [|c cs Hc _ IH]; intros children env; simpl.
  - by intros [= _ <-].
  - unfold bind. destruct (f c env) as [[[sub|e] env1]|] eqn:E.
    + intros Hrest. apply IH in Hrest. rewrite Hrest. eauto.
    + intros [= _ <-]. eauto.
    + done.
Qed.

Lemma render_block_below ctx show_nested commands env r env1 :
  render_block ctx show_nested commands env = Some (r, env1) ->
  below (temp_data env1) = below (temp_data env).
Proof.
  destruct (render_block_cases ctx show_nested commands env)
    as [(e & _ & ->)|(lines & _ & ->)].
  - by intros [= _ <-].
  - pose proof (parser_keeps_below
                  (map (fun line => (line, command_path ctx)) lines) env) as Hp.
    destruct (nested_parse_with_titles _ env) as [r1 env2].
    by intros [= _ <-].
Qed.

Lemma generate_nodes_below fuel name command parent show_nested commands
      env r env' :
  _generate_nodes fuel name command parent show_nested commands env
  = Some (r, env') ->
  below (temp_data env') = below (temp_data env).
Proof.
  revert name command parent commands env r env'.
  induction fuel as [|fuel IH]; intros name command parent commands env r env';
    [done|].
  rewrite generate_nodes_step. unfold bind, lift.
  destruct (_get_context name command parent) as [ctx|e]; [|by intros [= _ <-]].
  destruct (render_block ctx show_nested commands env)
    as [[[children|e] env1]|] eqn:Hblock; [| |done].
  2: { intros [= _ <-]. by apply render_block_below in Hblock. }
  apply render_block_below in Hblock as Hp.
  destruct show_nested; [|by intros [= _ <-]].
  intros Hext. apply extend_with_below in Hext; [congruence|].
  apply Forall_forall. intros sub _ env2 r2 env2'. apply IH.
Qed.

Lemma lookup_ChainMap_single m key :
  mapping_lookup (ChainMap [m]) key = mapping_lookup m key.
Proof. simpl. by destruct (mapping_lookup m key). Qed.

(** X22. Where the parser leaves the maps below the first one of
    [env.temp_data] in place (it may bind keys, it runs no [click]
    directive of its own), a [click] directive comes back with the outcome
    of its walk, be it nodes or an exception raised part-way, and has then
    popped what it pushed: every lookup in [env.temp_data] answers as
    before the directive.  A directive that fails before the walk
    (reference not resolved, no [prog]) has pushed nothing and leaves the
    environment as it was. *)
Theorem run_restores_temp_data (self : Directive) (env : Env) :
  exists outcome env',
    run self env = Some (outcome, env')
    /\ (forall key,
          mapping_lookup (temp_data env') key
          = mapping_lookup (temp_data env) key)
    /\ match _load_module (argument self), prog self with
       | Return command, Some p =>
           (exists env1,
              _generate_nodes (levels command) (PyStr p) command None
                              (show_nested self) (commands self)
                              (pushed command (PyStr p) env)
              = Some (outcome, env1))
           /\ temp_data env' = ChainMap [temp_data env]
       | Return _, None =>
           outcome = Raise (error ":prog: must be specified") /\ env' = env
       | Raise e, _ => outcome = Raise e /\ env' = env
       end.
Proof.
  unfold run, bind, lift.
  destruct (_load_module (argument self)) as [command|e];
    [|by eexists _, _].
  destruct (prog self) as [p|]; [|by eexists _, _].
  unfold get_temp_data, set_temp_data, try_finally. fold (pushed command (PyStr p) env).
  destruct (generate_nodes_total (levels command) (PyStr p) command None
              (show_nested self) (commands self)
              (pushed command (PyStr p) env) (le_n _)) as (r & env1 & Hgen).
  rewrite Hgen. apply generate_nodes_below in Hgen as Hb.
  unfold bind, lift. destruct env1 as [td1]. simpl in Hb.
  destruct td1 as [d|maps]; [done|]. simpl in Hb. injection Hb as Hb.
  simpl. rewrite Hb. simpl.
  eexists _, _. split; [reflexivity|]. split.
  - intros key. apply lookup_ChainMap_single.
  - split; [|done]. by eexists.
Qed.

End FullDirective.

(** A [click] directive whose walk fails in the block of [cli a]: the
    exception comes out and the lookups answer as before. *)
Lemma run_restores_temp_data_witness :
  let self := ClickDirective.mkDirective "tool:cli" (Some "cli") true false
                                         None in
  let engine := Fixture.failing_engine "cli a" in
  (forall vl env,
      State.below (temp_data (@nested_parse_with_titles engine vl env).2)
      = State.below (temp_data env))
  /\ exists outcome env',
      @ClickDirective.run Fixture.click engine Fixture.importer self
        Fixture.env0 = Some (outcome, env')
      /\ forall key,
          mapping_lookup (temp_data env') key
          = mapping_lookup (temp_data Fixture.env0) key.
Proof.
  cbv zeta.
  assert (Hp : forall vl env,
             State.below
               (temp_data
                  (@nested_parse_with_titles (Fixture.failing_engine "cli a")
                     vl env).2)
             = State.below (temp_data env)).
  { intros [|[l source] vl] env; simpl; [done|].
    by destruct (String.eqb source "cli a"). }
  split; [exact Hp|].
  destruct (@run_restores_temp_data Fixture.click
              (Fixture.failing_engine "cli a") Fixture.importer Hp
              (ClickDirective.mkDirective "tool:cli" (Some "cli") true false
                                          None)
              Fixture.env0) as (outcome & env' & Hrun & Hlookup & _).
  exists outcome, env'. split; [exact Hrun|exact Hlookup].
Defined.

(** The same directive, evaluated: the walk raises in the block of [cli a];
    afterwards no current command is bound, as before the directive. *)
Example failing_walk_is_popped :
  let self := ClickDirective.mkDirective "tool:cli" (Some "cli") true false
                                         None in
  let after := @ClickDirective.run Fixture.click
                 (Fixture.failing_engine "cli a") Fixture.importer self
                 Fixture.env0 in
  fst <$> after = Some (Raise (PyExc "SystemMessage"))
  /\ (fun st => mapping_lookup (temp_data st.2) "click:command") <$> after
     = Some None
  /\ (fun st => mapping_lookup (temp_data st.2) "docname") <$> after
     = Some (Some (PyStr "index")).
Proof. vm_compute. repeat split. Qed.

(** C6 (where the code departs from it). A [click] directive for a command
    whose help text holds a [click] directive: the inner directive pushes on
    top of the outer entry and leaves the ChainMap of its parents, a
    ChainMap with the outer one as its only map; the [finally] of the outer
    directive takes the parents of that, which is an empty ChainMap.  The
    outer directive returns its nodes, and afterwards [docname], bound
    before it, is not found any more. *)
Theorem nested_click_drops_bindings :
  let self := ClickDirective.mkDirective "tool:outer" (Some "outer") false
                                         false None in
  let after := @ClickDirective.run Fixture.click Fixture.nesting_engine
                 Fixture.nesting_importer self Fixture.env0 in
  mapping_lookup (temp_data Fixture.env0) "docname" = Some (PyStr "index")
  /\ (exists nodes, fst <$> after = Some (Return nodes))
  /\ (fun st => temp_data st.2) <$> after = Some (ChainMap [Dict ∅])
  /\ (fun st => mapping_lookup (temp_data st.2) "docname") <$> after
     = Some None.
Proof.
  cbv zeta. split; [reflexivity|]. split; [|split].
  - eexists. vm_compute. reflexivity.
  - vm_compute. reflexivity.
  - vm_compute. reflexivity.
Qed.

(** * Further properties of the code *)

(** ** More on [_indent] *)

Section IndentMore.
Import Lines LinesFacts.

Lemma join_empty_app (l1 l2 : list string) :
  Py.join "" (l1 ++ l2) = Py.join "" l1 +:+ Py.join "" l2.
Proof.
  induction l1 as [|x l1 IH]; [done|].
  change ((x :: l1) ++ l2) with (x :: (l1 ++ l2)).
  by rewrite !join_empty_cons, IH, str_app_assoc.
Qed.

Lemma mul_nonpositive s n : n <= 0 -> Py.mul s n = "".
Proof. intros Hn. unfold Py.mul. by replace (Z.to_nat n) with 0%nat by lia. Qed.

Lemma mul_add s n m :
  0 <= n -> 0 <= m -> Py.mul s (n + m) = Py.mul s n +:+ Py.mul s m.
Proof.
  intros Hn Hm. unfold Py.mul.
  rewrite Z2Nat.inj_add by lia. rewrite replicate_add.
  apply join_empty_app.
Qed.

Lemma indented_empty_prefix line : indented "" line = line.
Proof. unfold indented. by destruct (blank line). Qed.

Lemma lines_all_chars p s ls :
  lines s ls -> all_chars p s = true ->
  Forall (fun l => all_chars p l = true) ls.
Proof.
  induction 1 as [|body Hnb Hne|body term rest ls Hnb Hterm Hcr Hrest IH];
    intros Hp.
  - constructor.
  - by repeat constructor.
  - rewrite <- str_app_assoc, all_chars_app in Hp.
    apply andb_prop in Hp as [Hbt Hr]. constructor; auto.
Qed.

(** X1. At a level that is zero or negative the prefix is empty and the
    text comes back unchanged. *)
Theorem indent_nonpositive_level (text : string) (level : Z) :
  level <= 0 -> _indent text level = text.
Proof.
  intros Hl. rewrite indent_eq, mul_nonpositive by lia.
  rewrite (map_ext _ id) by apply indented_empty_prefix.
  rewrite map_id. apply join_lines, lines_splitlines.
Qed.

(** X2. Indenting twice is indenting once by the sum of the levels: blank
    lines stay blank and untouched, the other lines collect both
    prefixes. *)
Theorem indent_compose (text : string) (a b : Z) :
  0 <= a -> 0 <= b -> _indent (_indent text a) b = _indent text (a + b).
Proof.
  intros Ha Hb. rewrite (indent_eq (_indent text a)), splitlines_indent.
  rewrite (indent_eq text (a + b)), map_map. f_equal.
  apply map_ext. intros line. unfold indented.
  destruct (blank line) eqn:Hbl; [by rewrite Hbl|].
  assert (blank (Py.mul " " (4 * a) +:+ line) = false) as ->.
  { unfold blank in *. by rewrite all_chars_app, Hbl, andb_false_r. }
  replace (4 * (a + b)) with (4 * b + 4 * a) by lia.
  rewrite mul_add by lia. by rewrite str_app_assoc.
Qed.

(** X3. A text made of whitespace only is returned as it is, at every
    level. *)
Theorem indent_blank_text (text : string) (level : Z) :
  blank text = true -> _indent text level = text.
Proof.
  intros Hb. rewrite indent_eq.
  pose proof (lines_all_chars _ _ _ (lines_splitlines text) Hb) as Hls.
  rewrite <- (join_lines _ _ (lines_splitlines text)) at 2. f_equal.
  induction Hls as [|l ls Hl _ IH]; [done|].
  simpl. rewrite IH. f_equal. unfold indented, blank. by rewrite Hl.
Qed.

(** X4. A single line, not blank and without line break, gets the prefix
    of [4 * level] spaces in front and nothing else. *)
Theorem indent_single_line (line : string) (level : Z) :
  nobreak line = true -> blank line = false ->
  _indent line level = Py.mul " " (4 * level) +:+ line.
Proof.
  intros Hnb Hbl. rewrite indent_eq, splitlines_nobreak; [|done|].
  - simpl map. rewrite join_empty_cons. unfold indented. rewrite Hbl.
    apply str_app_empty_r.
  - by intros ->.
Qed.

End IndentMore.

(** [_indent] at the level 0 and at a negative level. *)
Lemma indent_nonpositive_level_witness :
  _indent ("a" +:+ Py.nl +:+ "b") 0 = "a" +:+ Py.nl +:+ "b"
  /\ _indent "a" (-1) = "a".
Proof.
  split.
  - apply indent_nonpositive_level. lia.
  - apply indent_nonpositive_level. lia.
Defined.

(** Level 1, then level 2, on a text with a blank line. *)
Lemma indent_compose_witness :
  _indent (_indent ("a" +:+ Py.nl +:+ Py.nl +:+ "b") 1) 2
  = _indent ("a" +:+ Py.nl +:+ Py.nl +:+ "b") (1 + 2).
Proof. apply indent_compose; lia. Defined.

(** Spaces, a tab and a line feed. *)
Lemma indent_blank_text_witness :
  _indent ("  " +:+ String (Py.chr 9) Py.nl) 2 = "  " +:+ String (Py.chr 9) Py.nl.
Proof. apply indent_blank_text. reflexivity. Defined.

(** One line of help text at the level 1. *)
Lemma indent_single_line_witness :
  _indent "Number of greetings." 1 = "    Number of greetings.".
Proof. apply (indent_single_line "Number of greetings." 1); reflexivity. Defined.

(** ** More on the blocks of the formatters *)

Section Blocks.
Context `{ClickLib} `{DocEngine}.
Import Lines LinesFacts.

Lemma indented_lines_start_blank (ls : list string) :
  Forall (fun l => starts_blank l = true) (map (fun line => _indent line 1) ls).
Proof. apply Forall_map, Forall_forall. intros. apply indent_starts_blank. Qed.

Lemma splitlines_false_nobreak (s : string) :
  nobreak s = true -> s <> "" -> Py.splitlines false s = [s].
Proof.
  induction s as [|c s IH]; [done|].
  intros Hnb _. rewrite nobreak_cons in Hnb. apply andb_prop in Hnb as [Hc Hs].
  apply negb_true_iff in Hc. simpl. rewrite Hc.
  destruct s as [|c' s']; [done|]. by rewrite IH.
Qed.

Lemma nobreak_app (a b : string) :
  nobreak (a +:+ b) = nobreak a && nobreak b.
Proof. apply all_chars_app. Qed.

Lemma nobreak_join_space (pieces : list string) :
  Forall (fun p => nobreak p = true) pieces ->
  nobreak (Py.join " " pieces) = true.
Proof.
  induction 1 as [|p ps Hp Hps IH]; [done|].
  unfold Py.join in *. destruct ps as [|q ps]; [done|].
  change (String.concat " " (p :: q :: ps))
    with (p +:+ " " +:+ String.concat " " (q :: ps)).
  by rewrite !nobreak_app, Hp, IH.
Qed.

(** X5. The block of an argument has three lines: the directive with the
    name, a blank line, and, behind four spaces, [Required argument] or
    [Optional argument], with the suffix [(s)] exactly when [nargs] is not
    1. *)
Theorem format_argument_lines (arg : ClickArgument) :
  _format_argument arg
  = [".. option:: " +:+ human_readable_name arg;
     "";
     "    " +:+ (if arg_required arg then "Required" else "Optional")
            +:+ " argument"
            +:+ (if decide (nargs arg = 1) then "" else "(s)")].
Proof.
  unfold _format_argument. do 3 f_equal.
  destruct (arg_required arg), (decide (nargs arg = 1)) as [E|E].
  - by rewrite bool_decide_eq_false_2 by (intros ?; done).
  - by rewrite bool_decide_eq_true_2.
  - by rewrite bool_decide_eq_false_2 by (intros ?; done).
  - by rewrite bool_decide_eq_true_2.
Qed.

(** X6. When the name the block refers to (the display name of an
    argument, the first flag of an option) has no line break, the block of
    an environment variable has three lines: the directive with the
    variable, a blank line and, behind four spaces, the sentence that
    points to the parameter. *)
Theorem format_envvar_lines (param : Param) :
  let param_ref :=
    match param with
    | PArgument a => human_readable_name a
    | POption o => opts_first o
    end in
  nobreak param_ref = true ->
  _format_envvar param
  = [".. envvar:: " +:+ default "None" (envvar param);
     "";
     "    Provide a default for :option:`" +:+ param_ref +:+ "`"].
Proof.
  intros param_ref Hnb. unfold _format_envvar. fold param_ref.
  do 3 f_equal.
  change ("    Provide a default for :option:`" +:+ param_ref +:+ "`")
    with (Py.mul " " (4 * 1)
            +:+ ("Provide a default for :option:`" +:+ param_ref +:+ "`")).
  apply indent_single_line; [|reflexivity].
  by rewrite !nobreak_app, Hnb.
Qed.

(** X7. The block of an option opens with the directive line that carries
    the label; every further line is empty or begins with whitespace, so
    it stays inside the directive; and there are further lines exactly
    when the help text, annotation included, is not empty.  When the help
    record raises, so does the block. *)
Theorem format_option_shape (opt : ClickOption) :
  match _get_help_record opt with
  | Return (label, help) =>
      exists body,
        _format_option opt = Return ((".. option:: " +:+ label) :: body)
        /\ Forall (fun l => starts_blank l = true) body
        /\ (body = [] <-> help = "")
  | Raise e => _format_option opt = Raise e
  end.
Proof.
  unfold _format_option.
  destruct (_get_help_record opt) as [[label [|c help]]|e]; [| |done].
  - exists []. by repeat split.
  - eexists. split; [reflexivity|]. split; [|by split].
    constructor; [done|]. apply indented_lines_start_blank.
Qed.

(** X8. The block of a sub-command opens with the directive line that
    carries its name; every further line is empty or begins with
    whitespace; and there are further lines exactly when the command has a
    short help that is not empty. *)
Theorem format_subcommand_shape (command : Command) :
  exists body,
    _format_subcommand command = (".. object:: " +:+ cmd_name command) :: body
    /\ Forall (fun l => starts_blank l = true) body
    /\ (body = [] <-> cmd_short_help command = None
                      \/ cmd_short_help command = Some "").
Proof.
  unfold _format_subcommand.
  destruct (cmd_short_help command) as [[|c sh]|]; simpl.
  - exists []. repeat split; auto.
  - eexists. split; [reflexivity|]. split.
    + constructor; [done|]. apply indented_lines_start_blank.
    + split; [done|]. by intros [?|?].
  - exists []. repeat split; auto.
Qed.

(** X9. The description comes from the help text, or from the short help
    when the help text is missing or empty; it is empty exactly when both
    are; no line of it is the backspace marker; and when there are lines,
    the last one is blank. *)
Theorem format_description_shape (ctx : Ctx) :
  let command := ctx_command ctx in
  let description := _format_description ctx in
  (forall hs,
      Py.truthy hs = true ->
      cmd_help command = Some hs
      \/ (truthy_opt (cmd_help command) = false
          /\ cmd_short_help command = Some hs) ->
      description
      = filter (fun line => Py.strip line ≠ Py.bs) (string2lines hs) ++ [""])
  /\ (description = []
      <-> truthy_opt (cmd_help command) = false
          /\ truthy_opt (cmd_short_help command) = false)
  /\ Forall (fun line => Py.strip line ≠ Py.bs) description
  /\ (description <> [] -> last description = Some "").
Proof.
  cbv zeta. unfold _format_description, py_or, truthy_opt.
  destruct (cmd_help (ctx_command ctx)) as [[|c h]|];
    destruct (cmd_short_help (ctx_command ctx)) as [[|c' sh]|]; simpl;
    (split; [intros hs Hhs [E|[E1 E2]]; try discriminate;
             try (injection E as <-); try (injection E2 as <-);
             try discriminate; reflexivity|]);
    (split; [split; [intros E; try done; by apply app_eq_nil in E as [_ ?]
                    |intros [? ?]; done]|]);
    (split; [try constructor;
             try (apply Forall_app; split;
                  [apply Forall_forall; intros l Hl;
                   by apply list_elem_of_filter in Hl as [? _]
                  |by repeat constructor])
            |intros ?; try done; by rewrite last_snoc]).
Qed.

(** X10. When the command path and the usage pieces have no line break,
    the usage is one line between two blank lines: the path in bold and
    the pieces, separated by spaces. *)
Theorem format_usage_single_line (ctx : Ctx) :
  nobreak (command_path ctx) = true ->
  Forall (fun piece => nobreak piece = true) (collect_usage_pieces ctx) ->
  _format_usage ctx
  = [""; "**" +:+ command_path ctx +:+ "** "
            +:+ Py.join " " (collect_usage_pieces ctx); ""].
Proof.
  intros Hp Hps. unfold _format_usage, _get_usage.
  rewrite splitlines_false_nobreak; [done| |done].
  rewrite !nobreak_app, Hp, (nobreak_join_space _ Hps). done.
Qed.

End Blocks.

(** The block of the variable [COUNT] of the option [--count]. *)
Lemma format_envvar_lines_witness :
  _format_envvar
    (POption (mkOption "--count" [] [] false false None None None false false
                       None (Some "COUNT")))
  = [".. envvar:: COUNT"; ""; "    Provide a default for :option:`--count`"].
Proof.
  apply (format_envvar_lines
           (POption (mkOption "--count" [] [] false false None None None false
                              false None (Some "COUNT")))).
  reflexivity.
Defined.

(** The usage of [cli]. *)
Lemma format_usage_single_line_witness :
  @_format_usage Fixture.click (mkContext Fixture.cli (PyStr "cli") None)
  = [""; "**cli** [OPTIONS]"; ""].
Proof.
  apply (@format_usage_single_line Fixture.click
           (mkContext Fixture.cli (PyStr "cli") None)).
  - reflexivity.
  - by repeat constructor.
Defined.

(** The description of a command that has a short help only. *)
Lemma format_description_shape_witness :
  @_format_description Fixture.engine
    (mkContext (mkCommand "x" (Some "") (Some "Short.") [] None) (PyStr "x") None)
  = ["Short."; ""].
Proof.
  apply (proj1 (@format_description_shape Fixture.engine
                  (mkContext (mkCommand "x" (Some "") (Some "Short.") [] None)
                             (PyStr "x") None)) "Short.").
  - reflexivity.
  - right. split; reflexivity.
Defined.

(** ** More on the selection, the renderer and the walker *)

Section SelectionMore.
Context `{ClickLib} `{DocEngine}.
Import AbstractClickDirective ClickDirective Walk.

Lemma filter_commands_empty_mapping (ctx : Ctx) (commands : option string) :
  get_commands (ctx_command ctx) = [] -> _filter_commands ctx commands = [].
Proof.
  intros E. unfold _filter_commands. rewrite E.
  destruct commands as [names|]; [|done].
  by induction (map Py.strip (Py.split "," names)).
Qed.

Lemma sorted_of_Sorted {A} (key : A -> string) (l : list A) :
  Sorted (by_key key) l -> sorted key l = l.
Proof.
  induction 1 as [|x l Hl IH Hhd]; [done|].
  simpl. rewrite IH. destruct Hhd as [|y l Hxy]; [done|].
  simpl. unfold by_key in Hxy. by rewrite Hxy.
Qed.

(** X11. A command without the attribute [commands] (a plain command), or
    with an empty mapping, has an empty selection, whatever the filter. *)
Theorem filter_commands_no_mapping (ctx : Ctx) (commands : option string) :
  cmd_commands (ctx_command ctx) = None
  \/ cmd_commands (ctx_command ctx) = Some [] ->
  _filter_commands ctx commands = [].
Proof.
  intros Hc. apply filter_commands_empty_mapping. unfold get_commands.
  by destruct Hc as [-> | ->].
Qed.

(** X12. Without a filter, a mapping whose entries already stand in the
    order of their names is returned entry by entry as it stands (entries
    of equal name keep their order); in particular sorting a second time
    changes nothing. *)
Theorem filter_commands_sorted_mapping (ctx : Ctx) :
  let values := map snd (get_commands (ctx_command ctx)) in
  (Sorted (by_key cmd_name) values -> _filter_commands ctx None = values)
  /\ sorted cmd_name (_filter_commands ctx None) = _filter_commands ctx None.
Proof.
  cbv zeta. unfold _filter_commands. split.
  - apply sorted_of_Sorted.
  - apply sorted_of_Sorted, sorted_Sorted.
Qed.

Lemma format_command_nested_app (ctx : Ctx) (commands commands' : option string) :
  _format_command ctx false commands
  = (let? nested := _format_command ctx true commands' in
     Return
       (nested
          ++ (match _filter_commands ctx commands with
              | [] => []
              | _ => ["Commands"; "--------"; ""]
              end)
          ++ flat_map (fun command => _format_subcommand command ++ [""])
                      (_filter_commands ctx commands)))%R.
Proof.
  unfold _format_command.
  destruct (_format_options ctx) as [options|e]; unfold and_then; [|done].
  cbv zeta. f_equal. rewrite app_nil_r. rewrite <- !app_assoc. reflexivity.
Qed.

Lemma format_command_no_selection (ctx : Ctx) (commands commands' : option string) :
  _filter_commands ctx commands = [] ->
  _format_command ctx false commands = _format_command ctx true commands'.
Proof.
  intros E. rewrite (format_command_nested_app ctx commands commands'), E.
  destruct (_format_command ctx true commands') as [nested|e]; [|done].
  simpl. by rewrite app_nil_r.
Qed.

(** X13. The lines rendered without nesting are the lines rendered with
    nesting, which do not depend on the filter, followed by the section of
    the selected sub-commands: its heading when the selection is not
    empty, and one block and a blank line per selected sub-command.  When
    nothing is selected, both renderings are the same, and when one
    raises, so does the other. *)
Theorem format_command_nested_prefix (ctx : Ctx)
        (commands commands' : option string) :
  let selection := _filter_commands ctx commands in
  match _format_command ctx true commands' with
  | Return nested =>
      _format_command ctx false commands
      = Return
          (nested
             ++ (match selection with
                 | [] => []
                 | _ => ["Commands"; "--------"; ""]
                 end)
             ++ flat_map (fun command => _format_subcommand command ++ [""])
                         selection)
  | Raise e => _format_command ctx false commands = Raise e
  end
  /\ (selection = [] ->
      _format_command ctx false commands = _format_command ctx true commands').
Proof.
  cbv zeta. split.
  - rewrite (format_command_nested_app ctx commands commands').
    by destruct (_format_command ctx true commands').
  - apply format_command_no_selection.
Qed.

(** X14. For a command from which nothing is selected (no sub-commands, or
    a filter that names none of them) the walker does the same with and
    without [show-nested]: it parses the one block of the command. *)
Theorem generate_nodes_no_selection (fuel : nat) (name : PyObject)
        (c : Command) (parent : option Ctx) (commands : option string)
        (env : Env) :
  _filter_commands (mkContext c name parent) commands = [] ->
  _generate_nodes (S fuel) name (PyCommand c) parent true commands env
  = _generate_nodes (S fuel) name (PyCommand c) parent false commands env
  /\ _generate_nodes (S fuel) name (PyCommand c) parent true commands env
     = render_block (mkContext c name parent) false commands env.
Proof.
  intros Hsel. rewrite !generate_nodes_step. simpl.
  unfold bind, lift, render_block, bind, lift, call, ret.
  rewrite <- (format_command_no_selection _ commands commands Hsel), Hsel.
  destruct (_format_command _ false commands) as [lines|e]; [|done].
  split; by destruct (nested_parse_with_titles _ env) as [[?|?] ?].
Qed.

Lemma extend_with_prefix (f : Command -> M (list node)) cs children env
      nodes env' :
  extend_with f cs children env = Some (Return nodes, env') ->
  exists rest, nodes = children ++ rest.
Proof.
  revert children env. induction cs as [|c cs IH]; intros children env; simpl.
  - intros [= <- _]. exists []. by rewrite app_nil_r.
  - unfold bind. destruct (f c env) as [[[sub|e] env1]|]; [|done..].
    intros Hrest. apply IH in Hrest as [rest ->].
    exists (sub ++ rest). by rewrite app_assoc.
Qed.

(** X15. When the walker returns nodes, the block of the command was
    parsed first and its nodes open the result, before the nodes of any
    sub-command; without [show-nested] they are the whole result. *)
Theorem generate_nodes_block_first (fuel : nat) (name command : PyObject)
        (parent : option Ctx) (show_nested : bool) (commands : option string)
        (env env' : Env) (nodes : list node) :
  _generate_nodes (S fuel) name command parent show_nested commands env
  = Some (Return nodes, env') ->
  exists c children env1 rest,
    command = PyCommand c
    /\ render_block (mkContext c name parent) show_nested commands env
       = Some (Return children, env1)
    /\ nodes = children ++ rest
    /\ (show_nested = false -> rest = [] /\ env' = env1).
Proof.
  rewrite generate_nodes_step. unfold bind, lift, _get_context.
  destruct command as [| |c]; [done..|].
  destruct (render_block _ show_nested commands env)
    as [[[children|e] env1]|] eqn:Hblock; [|done..].
  destruct show_nested.
  - intros Hext. apply extend_with_prefix in Hext as [rest ->].
    by exists c, children, env1, rest.
  - intros [= <- <-]. exists c, children, env1, [].
    by rewrite app_nil_r.
Qed.

End SelectionMore.

(** A plain command and the filter ["a,b"]. *)
Lemma filter_commands_no_mapping_witness :
  _filter_commands (mkContext (Fixture.leaf "x") (PyStr "x") None) (Some "a,b")
  = [].
Proof.
  apply (filter_commands_no_mapping
           (mkContext (Fixture.leaf "x") (PyStr "x") None) (Some "a,b")).
  left. reflexivity.
Defined.

(** The mapping of [abc] stands in the order [a], [b], [c]. *)
Lemma filter_commands_sorted_mapping_witness :
  _filter_commands (mkContext Fixture.abc (PyStr "abc") None) None
  = [Fixture.leaf "a"; Fixture.leaf "b"; Fixture.leaf "c"].
Proof.
  apply (proj1 (filter_commands_sorted_mapping
                  (mkContext Fixture.abc (PyStr "abc") None))).
  repeat constructor.
Defined.

(** [abc] with the filter ["x"], which names none of its sub-commands. *)
Lemma format_command_nested_prefix_witness :
  @_format_command Fixture.click Fixture.engine
    (mkContext Fixture.abc (PyStr "abc") None) false (Some "x")
  = @_format_command Fixture.click Fixture.engine
      (mkContext Fixture.abc (PyStr "abc") None) true None.
Proof.
  apply (proj2 (@format_command_nested_prefix Fixture.click Fixture.engine
                  (mkContext Fixture.abc (PyStr "abc") None) (Some "x") None)).
  reflexivity.
Defined.

(** The walk of the plain command [x]. *)
Lemma generate_nodes_no_selection_witness :
  @ClickDirective._generate_nodes Fixture.click Fixture.engine 1
    (PyStr "x") (PyCommand (Fixture.leaf "x")) None true None Fixture.env0
  = @ClickDirective._generate_nodes Fixture.click Fixture.engine 1
      (PyStr "x") (PyCommand (Fixture.leaf "x")) None false None Fixture.env0.
Proof.
  apply (proj1 (@generate_nodes_no_selection Fixture.click Fixture.engine 0
                  (PyStr "x") (Fixture.leaf "x") None None Fixture.env0
                  eq_refl)).
Defined.

(** The walk of [cli] with [show-nested]: the block of [cli] comes first. *)
Lemma generate_nodes_block_first_witness :
  let walk := @ClickDirective._generate_nodes Fixture.click Fixture.engine 3
                (PyStr "cli") (PyCommand Fixture.cli) None true None
                Fixture.env0 in
  let nodes := match walk with Some (Return ns, _) => ns | _ => [] end in
  exists c children env1 rest,
    PyCommand Fixture.cli = PyCommand c
    /\ @Walk.render_block Fixture.click Fixture.engine
         (mkContext c (PyStr "cli") None) true None Fixture.env0
       = Some (Return children, env1)
    /\ nodes = children ++ rest
    /\ (true = false -> rest = [] /\ Fixture.env0 = env1).
Proof.
  cbv zeta.
  apply (@generate_nodes_block_first Fixture.click Fixture.engine
           2 (PyStr "cli") (PyCommand Fixture.cli) None true None
           Fixture.env0 Fixture.env0).
  vm_compute. reflexivity.
Defined.

(** ** More on the resolver and the directives *)

Section ResolverMore.
Context `{Importer}.
Import AbstractClickDirective Ref.

(** X16. The resolver returns a value only for a reference with a colon,
    cut at the first one, whose module was imported and binds the
    attribute to that value; and whatever makes it fail, what it raises is
    an error of the directive. *)
Theorem load_module_outcomes (module_path : string) :
  (forall value,
      _load_module module_path = Return value ->
      exists module_name attr_name module,
        module_path = module_name +:+ ":" +:+ attr_name
        /\ no_colon module_name = true
        /\ __import__ module_name [attr_name] = Imported module
        /\ module_getattr module attr_name = Some value)
  /\ (forall e,
        _load_module module_path = Raise e -> exists msg, e = DirectiveError msg).
Proof.
  destruct (split1_cases module_path) as [[Hn _]|(m & a & Hm & -> & _)].
  - rewrite (load_module_no_colon _ Hn). split; [done|].
    intros e [= <-]. by eexists.
  - rewrite (load_module_colon _ _ Hm).
    destruct (__import__ m [a]) as [module|[|tb]] eqn:Hi.
    + destruct (module_getattr module a) as [v|] eqn:Ha.
      * split; [|done]. intros value [= <-]. by exists m, a, module.
      * split; [done|]. intros e [= <-]. by eexists.
    + split; [done|]. intros e [= <-]. by eexists.
    + split; [done|]. intros e [= <-]. by eexists.
Qed.

End ResolverMore.

(** The reference ["tool:cli"] resolves to the command [cli]. *)
Lemma load_module_outcomes_witness :
  exists module_name attr_name module,
    "tool:cli" = module_name +:+ ":" +:+ attr_name
    /\ Ref.no_colon module_name = true
    /\ @__import__ Fixture.importer module_name [attr_name] = Imported module
    /\ @module_getattr Fixture.importer module attr_name
       = Some (PyCommand Fixture.cli).
Proof.
  apply (proj1 (@load_module_outcomes Fixture.importer "tool:cli")).
  reflexivity.
Defined.

Section DirectivesMore.
Context `{ClickLib} `{DocEngine} `{Importer}.
Import AbstractClickDirective Walk State.





(** The parser may bind keys of [env.temp_data]; it leaves the maps below
    the first one of a ChainMap. *)
Hypothesis parser_keeps_below :
  forall vl env,
    below (temp_data (nested_parse_with_titles vl env).2)
    = below (temp_data env).

Lemma run_env_after (self : ClickDirective.Directive) (env : Env) :
  exists outcome env',
    ClickDirective.run self env = Some (outcome, env')
    /\ (env' = env \/ temp_data env' = ChainMap [temp_data env]).
Proof.
  unfold ClickDirective.run, bind, lift.
  destruct (_load_module (ClickDirective.argument self)) as [command|e];
    [|by eexists _, _; eauto].
  destruct (ClickDirective.prog self) as [p|]; [|by eexists _, _; eauto].
  unfold get_temp_data, set_temp_data, try_finally.
  fold (pushed command (PyStr p) env).
  destruct (generate_nodes_total (ClickDirective.levels command) (PyStr p)
              command None (ClickDirective.show_nested self)
              (ClickDirective.commands self)
              (pushed command (PyStr p) env) (le_n _)) as (r & env1 & Hgen).
  rewrite Hgen.
  apply (generate_nodes_below parser_keeps_below) in Hgen as Hb.
  unfold bind, lift. destruct env1 as [td1]. simpl in Hb.
  destruct td1 as [d|maps]; [done|]. simpl in Hb. injection Hb as Hb.
  simpl. rewrite Hb. simpl. eexists _, _. split; [reflexivity|]. by right.
Qed.

(** X18. The command of a [click] directive does not outlive it: where no
    current command was bound before a [click] directive, a
    [click-options] directive without argument that comes after it fails
    for want of a context, whether the [click] directive returned nodes or
    raised. *)
Theorem click_context_does_not_leak (self : ClickDirective.Directive)
        (opts : ClickOptionsDirective.Directive) (env env' : Env)
        (outcome : result (list node)) :
  mapping_lookup (temp_data env) "click:command" = None ->
  ClickOptionsDirective.arguments opts = None ->
  ClickDirective.run self env = Some (outcome, env') ->
  ClickOptionsDirective.run opts env'
  = Some (Raise (error ("The " +:+ ClickOptionsDirective.name opts
                          +:+ " directive can only be used within a `click` directive.")),
          env').
Proof.
  intros Hnone Hargs Hrun.
  destruct (run_env_after self env) as (o & e & Hrun' & Hafter).
  rewrite Hrun in Hrun'. injection Hrun' as <- <-.
  assert (mapping_lookup (temp_data env') "click:command" = None) as Hl.
  { destruct Hafter as [->| ->]; [done|].
    by rewrite lookup_ChainMap_single. }
  unfold ClickOptionsDirective.run. rewrite Hargs.
  unfold bind, get_temp_data, ret, mapping_get. by rewrite Hl.
Qed.

End DirectivesMore.


(** A [click] directive whose walk fails, then [click-options]. *)
Lemma click_context_does_not_leak_witness :
  let self := ClickDirective.mkDirective "tool:cli" (Some "cli") true false
                                         None in
  let opts := ClickOptionsDirective.mkDirective None None "click-options" in
  let engine := Fixture.failing_engine "cli a" in
  exists outcome env',
    @ClickDirective.run Fixture.click engine Fixture.importer self Fixture.env0
    = Some (outcome, env')
    /\ @ClickOptionsDirective.run Fixture.click engine Fixture.importer opts env'
       = Some (Raise (DirectiveError
                        "The click-options directive can only be used within a `click` directive."),
               env').
Proof.
  cbv zeta.
  assert (Hp : forall vl env,
             State.below
               (temp_data
                  (@nested_parse_with_titles (Fixture.failing_engine "cli a")
                     vl env).2)
             = State.below (temp_data env)).
  { intros [|[l source] vl] env; simpl; [done|].
    by destruct (String.eqb source "cli a"). }
  destruct (@run_env_after Fixture.click (Fixture.failing_engine "cli a")
              Fixture.importer Hp
              (ClickDirective.mkDirective "tool:cli" (Some "cli") true false
                                          None)
              Fixture.env0) as (outcome & env' & Hrun & _).
  exists outcome, env'. split; [exact Hrun|].
  exact (@click_context_does_not_leak Fixture.click
           (Fixture.failing_engine "cli a") Fixture.importer Hp
           (ClickDirective.mkDirective "tool:cli" (Some "cli") true false None)
           (ClickOptionsDirective.mkDirective None None "click-options")
           Fixture.env0 env' outcome eq_refl eq_refl Hrun).
Defined.

Section SectionsMore.
Context `{ClickLib} `{DocEngine} `{Importer}.
Import AbstractClickDirective.

Lemma flat_map_result_app {A B} (f : A -> result (list B)) (l1 l2 : list A) :
  flat_map_result f (l1 ++ l2)
  = (let? a := flat_map_result f l1 in
     let? b := flat_map_result f l2 in
     Return (a ++ b))%R.
Proof.
  induction l1 as [|x l1 IH]; simpl.
  - by destruct (flat_map_result f l2).
  - destruct (f x) as [ys|e]; simpl; [|done]. rewrite IH.
    destruct (flat_map_result f l1) as [a|e]; simpl; [|done].
    destruct (flat_map_result f l2) as [b|e]; simpl; [|done].
    by rewrite app_assoc.
Qed.

(** X19. The option, argument and variable sections are built parameter by
    parameter, in the order of declaration: the blocks of a command whose
    parameters are those of [c1] followed by those of [c2] are the blocks
    of [c1] followed by the blocks of [c2], in each of the three sections
    (for the options: when both can be formatted; the first one that
    raises decides otherwise). *)
Theorem sections_follow_parameters (c c1 c2 : Command) (name : PyObject)
        (parent : option Ctx) :
  cmd_params c = cmd_params c1 ++ cmd_params c2 ->
  let ctx := fun command => mkContext command name parent in
  _format_options (ctx c)
  = (let? first := _format_options (ctx c1) in
     let? second := _format_options (ctx c2) in
     Return (first ++ second))%R
  /\ _format_arguments (ctx c)
     = _format_arguments (ctx c1) ++ _format_arguments (ctx c2)
  /\ _format_envvars (ctx c)
     = _format_envvars (ctx c1) ++ _format_envvars (ctx c2).
Proof.
  intros Hp ctx.
  unfold _format_options, _format_arguments, _format_envvars. simpl.
  rewrite Hp, !omap_app, filter_app, flat_map_result_app, !flat_map_app. done.
Qed.


End SectionsMore.

(** A command with an option and an argument, as the join of a command
    with the option and a command with the argument. *)
Lemma sections_follow_parameters_witness :
  let o := POption (Fixture.option_ None false true) in
  let a := PArgument (mkArgument "NAME" true 1 None) in
  let command := fun ps => mkCommand "x" None None ps None in
  let ctx := fun ps => mkContext (command ps) (PyStr "x") None in
  @_format_options Fixture.click Fixture.engine (ctx [o; a])
  = (let? first := @_format_options Fixture.click Fixture.engine (ctx [o]) in
     let? second := @_format_options Fixture.click Fixture.engine (ctx [a]) in
     Return (first ++ second))%R.
Proof.
  cbv zeta.
  apply (proj1 (@sections_follow_parameters Fixture.click Fixture.engine
                  (mkCommand "x" None None
                     [POption (Fixture.option_ None false true);
                      PArgument (mkArgument "NAME" true 1 None)] None)
                  (mkCommand "x" None None
                     [POption (Fixture.option_ None false true)] None)
                  (mkCommand "x" None None
                     [PArgument (mkArgument "NAME" true 1 None)] None)
                  (PyStr "x") None eq_refl)).
Defined.

